(** * The tracer of dd-trace-go: span creation, recording, flushing, worker

    A shallow embedding of [tracer/tracer.go].  The [Tracer] struct is a
    record, its methods are state-passing functions over that record, and
    everything the tracer does to the outside (transport calls, log lines,
    sampler invocations, the worker's deferred calls) is kept in an event
    trace, so that "no transport call" or "the sampler is not invoked" are
    statements about that trace. *)

From Stdlib Require Import ZArith String List SpecFloat.
From stdpp Require Import gmap strings list fin_maps.

Open Scope string_scope.
Open Scope list_scope.

(** ** Values *)

(** Go's [uint64]: an integer in [0, 2^64).  The tracer only stores,
    copies and compares identifiers; no arithmetic is done on them. *)
Definition uint64 := Z.

(** Go's [float64] with the IEEE 754 comparisons [==], [<], [<=] of
    [SpecFloat] ([SFeqb], [SFltb], [SFleb]): a comparison with NaN is
    false, and [-0 == 0]. *)
Definition float64 := spec_float.

(** The constants [0] and [1] of [SetSampleRate] as [float64] values
    (1 = 2^52 * 2^-52 in binary64). *)
Definition f64_zero : float64 := S754_zero false.
Definition f64_one : float64 := S754_finite false 4503599627370496 (-52).

(** Go's [error] values; [nil] is [None] where an error is returned. *)
Definition error := string.

(** A [*Tracer]: tracers are shared by reference (every span points back
    to one), so they are named by their address. *)
Definition ptr := positive.

(** [x == nil] on an interface value. *)
Definition isNil {A} (x : option A) : bool :=
  match x with
  | None => true
  | Some _ => false
  end.

(** [type Service struct] *)
Module Service.
Record t := mk {
  Name : string;
  App : string;
  AppType : string
}.

#[global] Instance eq_dec : EqDecision t.
Proof. solve_decision. Defined.

(** [func (s Service) Equal(s2 Service) bool] *)
Definition Equal (s s2 : t) : bool :=
  bool_decide (Name s = Name s2) && bool_decide (App s = App s2)
  && bool_decide (AppType s = AppType s2).
End Service.
Abbreviation Service := Service.t.

(** Modelled from the spec: [type Span struct] of [span.go] (not under
    the sources), with the fields [tracer.go] reads and writes ([Service],
    [TraceID], [SpanID], [Sampled], [tracer]) and those [NewSpan] is
    given: a span identifies itself, its trace and its parent, carries a
    name, a service, a resource and the kept flag, and refers back to its
    tracer.  Its timing and tag fields play no part here. *)
Module Span.
Record t := mk {
  Name : string;
  Service : string;
  Resource : string;
  SpanID : uint64;
  TraceID : uint64;
  ParentID : uint64;
  Sampled : bool;
  tracer : option ptr
}.

#[global] Instance eq_dec : EqDecision t.
Proof. solve_decision. Defined.

Definition set_Sampled (b : bool) (s : t) : t :=
  mk (Name s) (Service s) (Resource s) (SpanID s) (TraceID s) (ParentID s)
     b (tracer s).
End Span.
Abbreviation Span := Span.t.

(** Modelled from the spec: the constructor [NewSpan] of [span.go] (not
    under the sources).  It stores its seven arguments in the span; the
    value the kept flag starts with is not stated anywhere, so it is the
    argument [dflt]. *)
Definition NewSpan (dflt : bool) (name service resource : string)
    (spanID traceID parentID : uint64) (tracer : option ptr) : Span :=
  Span.mk name service resource spanID traceID parentID dflt tracer.

(** ** The sampler *)

(** Modelled from the spec: the [sampler] interface of [sample.go] (not
    under the sources) with its two policies, the ones [tracer.go]
    installs: keep-all, [newAllSampler()], and keep by rate,
    [newRateSampler(rate)]. *)
Inductive sampler :=
| allSampler
| rateSampler (SampleRate : float64).

Definition newAllSampler : sampler := allSampler.
Definition newRateSampler (sampleRate : float64) : sampler :=
  rateSampler sampleRate.

(** ** The span buffer *)

(** Modelled from the spec: [spansBuffer] of [buffer.go] (not under the
    sources).  [Push] appends a span unless the buffer has reached its
    maximum size, in which case the push is dropped; [Pop] removes and
    returns everything; [Len] counts. *)
Module spansBuffer.
Record t := mk {
  spans : list Span;
  maxSize : nat
}.

Definition Push (s : Span) (sb : t) : t :=
  if decide (length (spans sb) < maxSize sb)
  then mk (spans sb ++ [s]) (maxSize sb)
  else sb.

Definition Pop (sb : t) : list Span * t :=
  (spans sb, mk [] (maxSize sb)).

Definition Len (sb : t) : nat := length (spans sb).
End spansBuffer.
Abbreviation spansBuffer := spansBuffer.t.

Definition newSpansBuffer (maxSize : nat) : spansBuffer :=
  spansBuffer.mk [] maxSize.

(** ** The transport *)

(** Modelled from the spec: the [Transport] interface of [transport.go]
    (not under the sources), consumed by the tracer: two opaque remote
    calls that answer with an error or [nil].  A transport may keep state
    of its own (a connection, a test double's record of calls), so a call
    returns the transport as it is afterwards.  The response the Go
    methods also return is dropped by the tracer ([_, err := ...]). *)
Class Transport (T : Type) := {
  SendTraces : list (list Span) -> T -> option error * T;
  SendServices : gmap string Service -> T -> option error * T
}.

(** ** Events *)

Inductive LogArg :=
| ArgInt (n : Z)
| ArgFloat (f : float64)
| ArgErr (e : error)
| ArgSpan (s : Span).

(** What a method does to the outside, in program order.  A log line
    keeps the format string as the source writes it and the arguments
    unformatted. *)
Inductive Event :=
| EvSample (smp : sampler) (s : Span)
| EvSendTraces (traces : list (list Span))
| EvSendServices (services : gmap string Service)
| EvLog (format : string) (args : list LogArg)
| EvTickerStop
| EvDone.

Definition is_transport_call (e : Event) : bool :=
  match e with
  | EvSendTraces _ | EvSendServices _ => true
  | _ => false
  end.

Definition is_sample_call (e : Event) : bool :=
  match e with
  | EvSample _ _ => true
  | _ => false
  end.

(** ** The tracer *)

(** [type Tracer struct].  The transport is an interface value and may be
    nil; [serviceChan] is the content of the buffered channel, oldest
    first; [exit] tells whether the exit channel has been closed; [exitWG]
    is the counter of the wait group. *)
Module Tracer.
Section Fields.
Context {T : Type}.

Record t := mk {
  transport : option T;
  sampler : sampler;
  buffer : spansBuffer;
  DebugLoggingEnabled : bool;
  enabled : bool;
  services : gmap string Service;
  servicesModified : bool;
  serviceChan : list Service;
  exit : bool;
  exitWG : nat
}.

Definition set_transport (x : option T) (r : t) : t :=
  mk x (sampler r) (buffer r) (DebugLoggingEnabled r) (enabled r)
     (services r) (servicesModified r) (serviceChan r) (exit r) (exitWG r).
Definition set_sampler x (r : t) : t :=
  mk (transport r) x (buffer r) (DebugLoggingEnabled r) (enabled r)
     (services r) (servicesModified r) (serviceChan r) (exit r) (exitWG r).
Definition set_buffer (x : spansBuffer) (r : t) : t :=
  mk (transport r) (sampler r) x (DebugLoggingEnabled r) (enabled r)
     (services r) (servicesModified r) (serviceChan r) (exit r) (exitWG r).
Definition set_enabled (x : bool) (r : t) : t :=
  mk (transport r) (sampler r) (buffer r) (DebugLoggingEnabled r) x
     (services r) (servicesModified r) (serviceChan r) (exit r) (exitWG r).
Definition set_services (x : gmap string Service) (r : t) : t :=
  mk (transport r) (sampler r) (buffer r) (DebugLoggingEnabled r) (enabled r)
     x (servicesModified r) (serviceChan r) (exit r) (exitWG r).
Definition set_servicesModified (x : bool) (r : t) : t :=
  mk (transport r) (sampler r) (buffer r) (DebugLoggingEnabled r) (enabled r)
     (services r) x (serviceChan r) (exit r) (exitWG r).
Definition set_serviceChan (x : list Service) (r : t) : t :=
  mk (transport r) (sampler r) (buffer r) (DebugLoggingEnabled r) (enabled r)
     (services r) (servicesModified r) x (exit r) (exitWG r).
Definition set_exit (x : bool) (r : t) : t :=
  mk (transport r) (sampler r) (buffer r) (DebugLoggingEnabled r) (enabled r)
     (services r) (servicesModified r) (serviceChan r) x (exitWG r).
Definition set_exitWG (x : nat) (r : t) : t :=
  mk (transport r) (sampler r) (buffer r) (DebugLoggingEnabled r) (enabled r)
     (services r) (servicesModified r) (serviceChan r) (exit r) x.
End Fields.
Arguments t : clear implicits.
End Tracer.
Abbreviation Tracer := Tracer.t.

(** ** State, events and panics: the monad of the methods *)

(** A method runs on a state [S] and either returns a value, or panics (a
    Go run-time panic, as on a call through a nil interface); either way
    it leaves a state and the events it produced up to there. *)
Inductive Res (S A : Type) :=
| Ok (a : A) (s : S) (evs : list Event)
| Panic (s : S) (evs : list Event).
Arguments Ok {S A} a s evs.
Arguments Panic {S A} s evs.

Definition M (S A : Type) : Type := S -> Res S A.

Definition ret {S A} (a : A) : M S A := fun s => Ok a s [].

Definition bind {S A B} (m : M S A) (f : A -> M S B) : M S B := fun s =>
  match m s with
  | Ok a s1 e1 =>
      match f a s1 with
      | Ok b s2 e2 => Ok b s2 (e1 ++ e2)
      | Panic s2 e2 => Panic s2 (e1 ++ e2)
      end
  | Panic s1 e1 => Panic s1 e1
  end.

Definition get {S} : M S S := fun s => Ok s s [].
Definition put {S} (s : S) : M S unit := fun _ => Ok tt s [].
Definition modify {S} (f : S -> S) : M S unit := fun s => Ok tt (f s) [].
Definition emit {S} (e : Event) : M S unit := fun s => Ok tt s [e].
Definition emits {S} (es : list Event) : M S unit := fun s => Ok tt s es.
Definition panic {S A} : M S A := fun s => Panic s [].

Declare Scope go_scope.
Delimit Scope go_scope with go.
Notation "'let*' x ':=' m 'in' k" := (bind m (fun x => k))
  (at level 10, x name, m at level 100, k at level 200) : go_scope.
Notation "m ';;' k" := (bind m (fun _ => k))
  (at level 100, k at level 200, right associativity) : go_scope.
Open Scope go_scope.

(** The events of a run, whether it returned or panicked. *)
Definition events {S A} (r : Res S A) : list Event :=
  match r with
  | Ok _ _ evs => evs
  | Panic _ evs => evs
  end.

(** The state of a run where it returned or panicked. *)
Definition final {S A} (r : Res S A) : S :=
  match r with
  | Ok _ s _ => s
  | Panic s _ => s
  end.

(** ** Stand-ins for the collaborators *)

(** A transport that keeps the number of calls it served and answers
    every call with [nil]. *)
Definition countingTransport := nat.
#[export] Instance countingTransport_ops : Transport countingTransport := {
  SendTraces _ n := (None, S n);
  SendServices _ n := (None, S n)
}.

(** A transport that refuses every call. *)
Inductive failingTransport := Unreachable.
#[export] Instance failingTransport_ops : Transport failingTransport := {
  SendTraces _ tr := (Some "connection refused", tr);
  SendServices _ tr := (Some "connection refused", tr)
}.

(** A source of identifiers that counts up. *)
Definition countingIDs (g : Z) : uint64 * Z := (g, (g + 1)%Z).

(** A rate sampler whose draw keeps nothing. *)
Definition neverDrawn (_ : Span) (_ : float64) : bool := false.

(** ** Sample data *)

(** Three finished spans of two traces: a request and its query in
    trace 1, another request in trace 2. *)
Definition spanA : Span :=
  Span.mk "web.request" "web" "/home" 1%Z 1%Z 0%Z true (Some 1%positive).
Definition spanB : Span :=
  Span.mk "db.query" "web" "db.query" 2%Z 1%Z 1%Z true (Some 1%positive).
Definition spanC : Span :=
  Span.mk "web.request" "web" "/login" 3%Z 2%Z 0%Z true (Some 1%positive).

Definition webService : Service := Service.mk "web" "rails" "web".
Definition dbService : Service := Service.mk "db" "postgres" "db".

(** A tracer at the moment [Stop] has closed its exit channel: three
    spans buffered, one service registered and not yet flushed, one
    service update still queued. *)
Definition busyTracer : Tracer countingTransport :=
  Tracer.mk (Some 0%nat) allSampler
    (spansBuffer.mk [spanA; spanC; spanB] 10)
    false true {[ "web" := webService ]} true [dbService] true 1.

(** The same tracer built without a transport. *)
Definition bareTracer : Tracer countingTransport :=
  Tracer.set_transport None busyTracer.

(** A fresh tracer of its own, at another address than the one the
    sample spans refer to. *)
Definition otherTracer : Tracer countingTransport :=
  Tracer.mk (Some 0%nat) allSampler (spansBuffer.mk [] 10)
    false true ∅ false [] false 1.

(** A tracer whose transport refuses every call, with one service
    registered and not yet flushed. *)
Definition stuckTracer : Tracer failingTransport :=
  Tracer.mk (Some Unreachable) allSampler (spansBuffer.mk [spanA] 10)
    false true {[ "web" := webService ]} true [] false 1.

(** 1.5 = 3 * 2^51 * 2^-52, a rate above 1. *)
Definition f64_one_and_a_half : float64 :=
  S754_finite false 6755399441055744 (-52).

(** 0.5 = 2^52 * 2^-53, a rate between 0 and 1. *)
Definition f64_half : float64 := S754_finite false 4503599627370496 (-53).

(** ** The methods of [*Tracer] *)

Section TracerMethods.

(** The collaborators whose code is not in [tracer.go]. *)

(** The transport behind the [Transport] interface. *)
Context {T : Type} `{!Transport T}.

(** [nextSpanID()], the process-wide random source of span identifiers:
    a draw yields an identifier and the source as it is afterwards. *)
Context {IdGen : Type}.
Variable nextSpanID : IdGen -> uint64 * IdGen.

(** The value of [Sampled] in a span fresh from [NewSpan]. *)
Variable defaultSampled : bool.

(** The outcome of the rate sampler's random draw for a span, compared
    against the rate. *)
Variable sampleByRate : Span -> float64 -> bool.

(** [spanBufferDefaultMaxSize], a constant of [buffer.go]. *)
Variable spanBufferDefaultMaxSize : nat.

(** The order in which a [range] over the map of trace groups yields its
    entries.  Go leaves it unspecified: every entry once, in some order. *)
Variable rangeOrder : gmap uint64 (list Span) -> list (uint64 * list Span).
Hypothesis rangeOrder_perm : forall m, rangeOrder m ≡ₚ map_to_list m.

(** Modelled from the spec: [Sample] of the [sampler] interface
    ([sample.go] is not under the sources).  The policy decides and
    records the kept outcome on the span: keep-all keeps, the rate policy
    keeps by its random draw. *)
Definition Sample (smp : sampler) (span : Span) : Span :=
  match smp with
  | allSampler => Span.set_Sampled true span
  | rateSampler rate => Span.set_Sampled (sampleByRate span rate) span
  end.

(** [func NewTracerTransport(transport Transport) *Tracer]: the record the
    constructor builds, with the worker started ([exitWG.Add(1)]). *)
Definition NewTracerTransport (transport : option T) : Tracer T :=
  Tracer.mk transport newAllSampler (newSpansBuffer spanBufferDefaultMaxSize)
    false true ∅ false [] false 1.

(** [func (t *Tracer) SetEnabled(enabled bool)] *)
Definition SetEnabled (enabled : bool) (t : Tracer T) : Tracer T :=
  Tracer.set_enabled enabled t.

(** [func (t *Tracer) Enabled() bool] *)
Definition Enabled (t : Tracer T) : bool := Tracer.enabled t.

(** [func (t *Tracer) SetSampleRate(sampleRate float64)] *)
Definition SetSampleRate (sampleRate : float64) : M (Tracer T) unit :=
  if SFeqb sampleRate f64_one then
    modify (Tracer.set_sampler newAllSampler)
  else if SFleb f64_zero sampleRate && SFltb sampleRate f64_one then
    modify (Tracer.set_sampler (newRateSampler sampleRate))
  else
    emit (EvLog "tracer.SetSampleRate rate must be between 0 and 1, now: %f"
                [ArgFloat sampleRate]).

(** [func (t *Tracer) SetServiceInfo(name, app, appType string)]: a send
    on the channel of capacity 10.  On a full channel the caller blocks
    until the worker has received; that is [None]. *)
Definition SetServiceInfo (name app appType : string) (t : Tracer T)
    : option (Tracer T) :=
  if decide (length (Tracer.serviceChan t) < 10)
  then Some (Tracer.set_serviceChan
               (Tracer.serviceChan t ++ [Service.mk name app appType]) t)
  else None.

(** [func (t *Tracer) NewRootSpan(name, service, resource string) *Span].
    [self] is the receiver's address, [t] what it points to. *)
Definition NewRootSpan (self : ptr) (t : Tracer T)
    (name service resource : string) (g : IdGen)
    : Span * IdGen * list Event :=
  let '(spanID, g) := nextSpanID g in
  let span :=
    NewSpan defaultSampled name service resource spanID spanID 0%Z
            (Some self) in
  (Sample (Tracer.sampler t) span, g, [EvSample (Tracer.sampler t) span]).

(** [func (t *Tracer) NewChildSpan(name string, parent *Span) *Span];
    a nil [parent] is [None]. *)
Definition NewChildSpan (self : ptr) (t : Tracer T)
    (name : string) (parent : option Span) (g : IdGen)
    : Span * IdGen * list Event :=
  let '(spanID, g) := nextSpanID g in
  match parent with
  | None =>
      let span :=
        NewSpan defaultSampled name "" name spanID spanID spanID
                (Some self) in
      (Sample (Tracer.sampler t) span, g, [EvSample (Tracer.sampler t) span])
  | Some parent =>
      let span :=
        NewSpan defaultSampled name (Span.Service parent) name spanID
                (Span.TraceID parent) (Span.SpanID parent)
                (Span.tracer parent) in
      let span := Span.set_Sampled (Span.Sampled parent) span in
      (span, g, [])
  end.

(** [func (t *Tracer) record(span *Span)] *)
Definition record (span : Span) (t : Tracer T) : Tracer T :=
  if Tracer.enabled t && Span.Sampled span
  then Tracer.set_buffer (spansBuffer.Push span (Tracer.buffer t)) t
  else t.

(** A method call on the transport held by the tracer.  The field is an
    interface value: calling through it when it is nil panics. *)
Definition callSendTraces (traces : list (list Span))
    : M (Tracer T) (option error) := fun t =>
  match Tracer.transport t with
  | None => Panic t []
  | Some tr =>
      let '(err, tr) := SendTraces traces tr in
      Ok err (Tracer.set_transport (Some tr) t) [EvSendTraces traces]
  end.

Definition callSendServices (services : gmap string Service)
    : M (Tracer T) (option error) := fun t =>
  match Tracer.transport t with
  | None => Panic t []
  | Some tr =>
      let '(err, tr) := SendServices services tr in
      Ok err (Tracer.set_transport (Some tr) t) [EvSendServices services]
  end.

(** The first loop of [FlushTraces]:
    [traceBuffer[s.TraceID] = append(traceBuffer[s.TraceID], s)]. *)
Definition groupByTrace (spans : list Span) : gmap uint64 (list Span) :=
  foldl (fun traceBuffer s =>
           <[Span.TraceID s :=
               default [] (traceBuffer !! Span.TraceID s) ++ [s]]> traceBuffer)
        ∅ spans.

(** The second loop: [traces = append(traces, t)] over the map. *)
Definition collectTraces (traceBuffer : gmap uint64 (list Span))
    : list (list Span) :=
  foldl (fun traces kv => traces ++ [kv.2]) [] (rangeOrder traceBuffer).

(** [func (t *Tracer) FlushTraces() error] *)
Definition FlushTraces : M (Tracer T) (option error) :=
  let* t := get in
  let '(spans, buffer) := spansBuffer.Pop (Tracer.buffer t) in
  put (Tracer.set_buffer buffer t) ;;
  (if Tracer.DebugLoggingEnabled t then
     emit (EvLog "Sending %d spans" [ArgInt (Z.of_nat (length spans))]) ;;
     emits (map (fun s => EvLog "SPAN:\n%s" [ArgSpan s]) spans)
   else ret tt) ;;
  if negb (Tracer.enabled t) || isNil (Tracer.transport t)
     || (length spans =? 0)%nat
  then ret None
  else
    let traceBuffer := groupByTrace spans in
    let traces := collectTraces traceBuffer in
    callSendTraces traces.

(** [func (t *Tracer) flushServices() error] *)
Definition flushServices : M (Tracer T) (option error) :=
  let* t := get in
  if negb (Tracer.enabled t) || negb (Tracer.servicesModified t)
  then ret None
  else
    let* err := callSendServices (Tracer.services t) in
    match err with
    | Some e => ret (Some e)
    | None =>
        modify (Tracer.set_servicesModified false) ;;
        ret None
    end.

(** [func (t *Tracer) flush()] *)
Definition flush : M (Tracer T) unit :=
  let* t := get in
  let nbSpans := spansBuffer.Len (Tracer.buffer t) in
  let* err := FlushTraces in
  match err with
  | Some e =>
      emit (EvLog "cannot flush traces: %v" [ArgErr e]) ;;
      emit (EvLog "lost %d spans" [ArgInt (Z.of_nat nbSpans)])
  | None => ret tt
  end ;;
  let* err := flushServices in
  match err with
  | Some e => emit (EvLog "cannot flush services: %v" [ArgErr e])
  | None => ret tt
  end.

(** [func (t *Tracer) appendService(service Service)].  A lookup of a
    missing key yields the zero [Service] and [found = false]. *)
Definition appendService (service : Service) (t : Tracer T) : Tracer T :=
  let '(s, found) :=
    match Tracer.services t !! Service.Name service with
    | Some s => (s, true)
    | None => (Service.mk "" "" "", false)
    end in
  if negb found || negb (Service.Equal s service)
  then Tracer.set_servicesModified true
         (Tracer.set_services
            (<[Service.Name service := service]> (Tracer.services t)) t)
  else t.

(** [func (t *Tracer) drainServices()]: receive and apply while the
    channel has something queued, return on the first empty select.  The
    loop runs once per queued service; [queued] is what is left in the
    channel. *)
Fixpoint drainLoop (queued : list Service) (t : Tracer T) : Tracer T :=
  match queued with
  | service :: queued =>
      drainLoop queued
        (appendService service (Tracer.set_serviceChan queued t))
  | [] => t
  end.

Definition drainServices (t : Tracer T) : Tracer T :=
  drainLoop (Tracer.serviceChan t) t.

(** ** The worker *)

(** The case a [select] of the worker's loop takes.  The ticker, the
    callers of [SetServiceInfo] and the caller of [Stop] run beside the
    worker; which ready case is taken at each turn of the loop is theirs
    and the scheduler's to decide, so it is an input. *)
Inductive Selected :=
| caseTick
| caseService
| caseExit.

Inductive WorkerStatus :=
| Running
| Stopped.

(** A case can be taken only when its channel is ready. *)
Definition ready (c : Selected) (t : Tracer T) : bool :=
  match c with
  | caseTick => true
  | caseService => negb (isNil (head (Tracer.serviceChan t)))
  | caseExit => Tracer.exit t
  end.

(** One turn of the [for { select { ... } }] loop of [worker]. *)
Definition workerTurn (c : Selected) : M (Tracer T) WorkerStatus :=
  let* t := get in
  match c with
  | caseTick =>
      flush ;;
      ret Running
  | caseService =>
      match Tracer.serviceChan t with
      | service :: queued =>
          put (appendService service (Tracer.set_serviceChan queued t)) ;;
          ret Running
      | [] => ret Running
      end
  | caseExit =>
      if Tracer.exit t then
        modify drainServices ;;
        flush ;;
        ret Stopped
      else ret Running
  end.

Fixpoint workerLoop (sched : list Selected) : M (Tracer T) WorkerStatus :=
  match sched with
  | [] => ret Running
  | c :: sched =>
      let* st := workerTurn c in
      match st with
      | Stopped => ret Stopped
      | Running => workerLoop sched
      end
  end.

(** [exitWG.Done()]: a counter that would go negative panics. *)
Definition Done : M (Tracer T) unit :=
  let* t := get in
  match Tracer.exitWG t with
  | O => panic
  | S n => put (Tracer.set_exitWG n t) ;; emit EvDone
  end.

(** [func (t *Tracer) worker()] along a schedule of selected cases.  The
    two deferred calls run, last deferred first, when the loop returns
    and also when it panics; a worker whose schedule ends before the exit
    case is taken is still in its loop. *)
Definition worker (sched : list Selected) : M (Tracer T) WorkerStatus :=
  fun t =>
  let deferred := emit EvTickerStop ;; Done in
  match workerLoop sched t with
  | Ok Stopped t evs =>
      match deferred t with
      | Ok _ t evs' => Ok Stopped t (evs ++ evs')
      | Panic t evs' => Panic t (evs ++ evs')
      end
  | Ok Running t evs => Ok Running t evs
  | Panic t evs => Panic (final (deferred t)) (evs ++ events (deferred t))
  end.

(** [func (t *Tracer) Stop()], first half: [close(t.exit)]; closing a
    closed channel panics. *)
Definition Stop_close : M (Tracer T) unit :=
  let* t := get in
  if Tracer.exit t then panic else put (Tracer.set_exit true t).

(** [Stop], second half: [t.exitWG.Wait()] returns once the counter is
    zero. *)
Definition Stop_released (t : Tracer T) : bool :=
  bool_decide (Tracer.exitWG t = 0%nat).

(** ** Tracers behind pointers *)

(** Modelled from the spec: [Finish] of [span.go] (not under the
    sources).  Finishing a span hands it to [record] of the tracer its
    back-reference names.  [None] where the reference is nil or names no
    tracer: what [Finish] does then is not stated. *)
Definition Finish (span : Span) (heap : gmap ptr (Tracer T))
    : option (gmap ptr (Tracer T)) :=
  match Span.tracer span with
  | None => None
  | Some p =>
      match heap !! p with
      | None => None
      | Some t => Some (<[p := record span t]> heap)
      end
  end.

(** ** The vocabulary of the properties *)

(** The run of [m] on [t] with the events [evs] that came before. *)
Definition after {A} (evs : list Event) (m : M (Tracer T) A) (t : Tracer T)
    : Res (Tracer T) A :=
  match m t with
  | Ok a t' evs' => Ok a t' (evs ++ evs')
  | Panic t' evs' => Panic t' (evs ++ evs')
  end.

Definition callSendTracesAfter (t : Tracer T) (evs : list Event)
    (traces : list (list Span)) : Res (Tracer T) (option error) :=
  after evs (callSendTraces traces) t.

(** [0 <= rate && rate <= 1] by the comparisons of [float64]; NaN is
    outside. *)
Definition inUnitInterval (rate : float64) : bool :=
  SFleb f64_zero rate && SFleb rate f64_one.

(** The lines [FlushTraces] logs when debug logging is on. *)
Definition debugLines (t : Tracer T) (spans : list Span) : list Event :=
  if Tracer.DebugLoggingEnabled t
  then EvLog "Sending %d spans" [ArgInt (Z.of_nat (length spans))]
       :: map (fun s => EvLog "SPAN:\n%s" [ArgSpan s]) spans
  else [].

(** The spans of one trace among [spans], in the order they have there. *)
Definition spansOfTrace (spans : list Span) (id : uint64) : list Span :=
  filter (fun s => Span.TraceID s = id) spans.

(** The trace identifiers that occur among [spans], each once. *)
Definition traceIDs (spans : list Span) : list uint64 :=
  remove_dups (Span.TraceID <$> spans).

(** The queued updates applied to the registry, oldest first. *)
Definition applyServices (queued : list Service) (t : Tracer T) : Tracer T :=
  foldl (fun t service => appendService service t) t queued.

(** Every service map handed to the transport among [evs] is [m]. *)
Definition sendsOnly (m : gmap string Service) (evs : list Event) : Prop :=
  forall m', EvSendServices m' ∈ evs -> m' = m.

(** The lines [flush] logs once [FlushTraces] has answered [err], [n]
    spans having been in the buffer before. *)
Definition lostLines (err : option error) (n : nat) : list Event :=
  match err with
  | Some e => [EvLog "cannot flush traces: %v" [ArgErr e];
               EvLog "lost %d spans" [ArgInt (Z.of_nat n)]]
  | None => []
  end.

(** The line [flush] logs once [flushServices] has answered [err]. *)
Definition servicesLines (err : option error) : list Event :=
  match err with
  | Some e => [EvLog "cannot flush services: %v" [ArgErr e]]
  | None => []
  end.

(** A run that ended in a panic. *)
Definition isPanic {S A} (r : Res S A) : Prop :=
  match r with
  | Ok _ _ _ => False
  | Panic _ _ => True
  end.

(** Every service of a registry sits under its own name. *)
Definition registryKeyed (services : gmap string Service) : Prop :=
  forall name s, services !! name = Some s -> Service.Name s = name.

(** Every span in the buffer is kept. *)
Definition bufferKept (t : Tracer T) : Prop :=
  Forall (fun s => Span.Sampled s = true)
         (spansBuffer.spans (Tracer.buffer t)).

(** A sampler [SetSampleRate] can have installed: keep-all, or a rate
    with [0 <= rate < 1]. *)
Definition validSampler (smp : sampler) : bool :=
  match smp with
  | allSampler => true
  | rateSampler rate => SFleb f64_zero rate && SFltb rate f64_one
  end.

(** A line of descent: [NewChildSpan] called on a span, then on the
    child it returned, and so on, once per name. *)
Fixpoint NewDescendant (self : ptr) (t : Tracer T) (names : list string)
    (ancestor : Span) (g : IdGen) : Span * IdGen * list Event :=
  match names with
  | [] => (ancestor, g, [])
  | name :: names =>
      let '(child, g, evs) := NewChildSpan self t name (Some ancestor) g in
      let '(span, g, evs') := NewDescendant self t names child g in
      (span, g, evs ++ evs')
  end.

(** [Stop] called twice: the exit channel is closed, then closed
    again. *)
Definition Stop_close_twice : M (Tracer T) unit :=
  Stop_close ;; Stop_close.

(** The two deferred calls of the worker. *)
Definition is_deferred_call (e : Event) : bool :=
  match e with
  | EvTickerStop | EvDone => true
  | _ => false
  end.

(** [SetSampleRate] called with one rate after the other. *)
Definition SetSampleRates (rates : list float64) (t : Tracer T) : Tracer T :=
  foldl (fun t rate => final (SetSampleRate rate t)) t rates.

(** ** Properties *)

(** *** The sample rate *)

Lemma SFeqb_one_inv (rate : float64) :
  SFeqb rate f64_one = true -> rate = f64_one.
Proof.
  unfold SFeqb, f64_one, SFcompare.
  destruct rate as [s| s| |s m e];
    try discriminate; try (destruct s; discriminate).
  destruct s; [discriminate|].
  destruct (Z.compare_spec e (-52)) as [->|_|_]; try discriminate.
  rewrite Pos.compare_cont_spec. unfold Pos.switch_Eq.
  destruct (Pos.compare_spec m 4503599627370496) as [->|_|_];
    try discriminate.
  reflexivity.
Qed.

Lemma SFltb_SFleb (x y : float64) : SFltb x y = true -> SFleb x y = true.
Proof.
  unfold SFltb, SFleb. destruct (SFcompare x y) as [[]|]; congruence.
Qed.

Lemma SFltb_not_SFeqb (x y : float64) : SFltb x y = true -> SFeqb x y = false.
Proof.
  unfold SFltb, SFeqb. destruct (SFcompare x y) as [[]|]; congruence.
Qed.

(** C8. A rate outside [0, 1] leaves the tracer as it was, sampler
    included, and only logs a warning; [SetSampleRate] returns normally.
    A rate equal to 1 installs the keep-all sampler, a rate with
    [0 <= rate < 1] the rate sampler of that rate. *)
Theorem SetSampleRate_spec (rate : float64) (t : Tracer T) :
  (inUnitInterval rate = false ->
     SetSampleRate rate t =
       Ok tt t
          [EvLog "tracer.SetSampleRate rate must be between 0 and 1, now: %f"
                 [ArgFloat rate]])
  /\ (SFeqb rate f64_one = true ->
        SetSampleRate rate t = Ok tt (Tracer.set_sampler allSampler t) [])
  /\ (SFleb f64_zero rate = true -> SFltb rate f64_one = true ->
        SetSampleRate rate t =
          Ok tt (Tracer.set_sampler (rateSampler rate) t) []).
Proof.
  unfold SetSampleRate, inUnitInterval. repeat split.
  - intros Hout. destruct (SFeqb rate f64_one) eqn:Heq.
    + apply SFeqb_one_inv in Heq. subst rate. discriminate Hout.
    + destruct (SFleb f64_zero rate) eqn:Hge; simpl in *; [|reflexivity].
      destruct (SFltb rate f64_one) eqn:Hlt; [|reflexivity].
      apply SFltb_SFleb in Hlt. congruence.
  - intros ->. reflexivity.
  - intros Hge Hlt. rewrite (SFltb_not_SFeqb _ _ Hlt), Hge, Hlt. reflexivity.
Qed.

(** *** Recording *)

(** C5. [record] pushes the span when the tracer is enabled and the span
    is kept, and otherwise leaves the tracer as it was.  With room in the
    buffer, the span ends up as the buffer's last element exactly when
    the tracer is enabled and the span is kept. *)
Theorem record_spec (span : Span) (t : Tracer T) :
  (Tracer.enabled t = true -> Span.Sampled span = true ->
     record span t =
       Tracer.set_buffer (spansBuffer.Push span (Tracer.buffer t)) t)
  /\ (Tracer.enabled t && Span.Sampled span = false -> record span t = t)
  /\ (length (spansBuffer.spans (Tracer.buffer t))
        < spansBuffer.maxSize (Tracer.buffer t) ->
      (spansBuffer.spans (Tracer.buffer (record span t))
         = spansBuffer.spans (Tracer.buffer t) ++ [span]
       <-> Tracer.enabled t = true /\ Span.Sampled span = true)).
Proof.
  unfold record. split; [|split].
  - intros -> ->. reflexivity.
  - intros ->. reflexivity.
  - intros Hroom. split.
    + destruct (Tracer.enabled t), (Span.Sampled span); simpl;
        try (split; reflexivity);
        intros E; apply (f_equal length) in E;
        rewrite length_app in E; simpl in E; lia.
    + intros [-> ->]. simpl. unfold spansBuffer.Push.
      destruct (decide _); [reflexivity | lia].
Qed.

(** *** Span creation *)

(** C1, as the code has it.  With a nil parent, [NewChildSpan] draws one
    identifier and returns a span whose own, trace and parent identifiers
    are all that identifier, whose service is empty and whose resource is
    the name, which refers to the receiver, and which has been handed to
    the tracer's sampler once: its kept flag is what that sampler
    recorded. *)
Theorem NewChildSpan_nil_parent (self : ptr) (t : Tracer T) (name : string)
    (g : IdGen) :
  let id := (nextSpanID g).1 in
  let fresh := NewSpan defaultSampled name "" name id id id (Some self) in
  NewChildSpan self t name None g
    = (Sample (Tracer.sampler t) fresh, (nextSpanID g).2,
       [EvSample (Tracer.sampler t) fresh])
  /\ let span := (NewChildSpan self t name None g).1.1 in
     Span.SpanID span = id /\ Span.TraceID span = id
     /\ Span.ParentID span = id
     /\ Span.Name span = name /\ Span.Service span = ""
     /\ Span.Resource span = name /\ Span.tracer span = Some self
     /\ Span.Sampled span = Span.Sampled (Sample (Tracer.sampler t) fresh).
Proof.
  unfold NewChildSpan. destruct (nextSpanID g) as [id g']. simpl.
  split; [reflexivity|]. destruct (Tracer.sampler t); simpl; tauto.
Qed.

(** C3. With a parent, the child takes the parent's service, trace
    identifier and kept flag, has its own name as resource and the
    parent's span identifier as parent identifier, and no sampler is
    invoked: the call produces no event at all. *)
Theorem NewChildSpan_inherits (self : ptr) (t : Tracer T) (name : string)
    (parent : Span) (g : IdGen) :
  let '(child, g', evs) := NewChildSpan self t name (Some parent) g in
  Span.Service child = Span.Service parent
  /\ Span.TraceID child = Span.TraceID parent
  /\ Span.Sampled child = Span.Sampled parent
  /\ Span.Resource child = name
  /\ Span.Name child = name
  /\ Span.ParentID child = Span.SpanID parent
  /\ Span.SpanID child = (nextSpanID g).1
  /\ g' = (nextSpanID g).2
  /\ evs = []
  /\ filter is_sample_call evs = [].
Proof.
  unfold NewChildSpan. destruct (nextSpanID g) as [id g']. simpl.
  repeat split; reflexivity.
Qed.

(** C10. For every parent, the child refers to the tracer the parent
    refers to, whatever the receiver is: to none when the parent refers to
    none, and to the receiver only when the parent does.  Finishing the
    child hands it to [record] of the tracer the parent refers to, when
    the heap holds one there, and leaves every other tracer, the receiver
    included, as it was. *)
Theorem NewChildSpan_tracer_of_parent (self : ptr) (t : Tracer T)
    (name : string) (parent : Span) (g : IdGen)
    (heap : gmap ptr (Tracer T)) :
  let child := (NewChildSpan self t name (Some parent) g).1.1 in
  Span.tracer child = Span.tracer parent
  /\ (Span.tracer child = Some self <-> Span.tracer parent = Some self)
  /\ Finish child heap
     = match Span.tracer parent with
       | Some p =>
           match heap !! p with
           | Some tp => Some (<[p := record child tp]> heap)
           | None => None
           end
       | None => None
       end
  /\ (forall p tp,
        Span.tracer parent = Some p -> heap !! p = Some tp ->
        Finish child heap = Some (<[p := record child tp]> heap))
  /\ (forall heap',
        Finish child heap = Some heap' ->
        exists p tp,
          Span.tracer parent = Some p /\ heap !! p = Some tp
          /\ heap' !! p = Some (record child tp)
          /\ forall q, q <> p -> heap' !! q = heap !! q).
Proof.
  unfold NewChildSpan. destruct (nextSpanID g) as [id g']. simpl.
  split; [reflexivity|]. split; [reflexivity|].
  unfold Finish. simpl. split; [reflexivity|]. split.
  - intros p tp -> ->. reflexivity.
  - intros heap'. destruct (Span.tracer parent) as [p|]; [|discriminate].
    destruct (heap !! p) as [tp|] eqn:Hheap; [|discriminate].
    intros [= <-]. exists p, tp.
    split; [reflexivity|]. split; [exact Hheap|]. split.
    + apply lookup_insert_eq.
    + intros q Hq. apply lookup_insert_ne. congruence.
Qed.

(** X1. A root span has its own identifier as trace identifier and 0 as
    parent identifier, carries the name, service and resource it was
    given, refers to the receiver, and is handed to the tracer's sampler
    once; it is returned whatever the sampler decides. *)
Theorem NewRootSpan_ids (self : ptr) (t : Tracer T)
    (name service resource : string) (g : IdGen) :
  let id := (nextSpanID g).1 in
  let fresh :=
    NewSpan defaultSampled name service resource id id 0%Z (Some self) in
  NewRootSpan self t name service resource g
    = (Sample (Tracer.sampler t) fresh, (nextSpanID g).2,
       [EvSample (Tracer.sampler t) fresh])
  /\ let span := (NewRootSpan self t name service resource g).1.1 in
     Span.TraceID span = Span.SpanID span
     /\ Span.SpanID span = id
     /\ Span.ParentID span = 0%Z
     /\ Span.Service span = service
     /\ Span.Resource span = resource
     /\ Span.tracer span = Some self.
Proof.
  unfold NewRootSpan. destruct (nextSpanID g) as [id g']. simpl.
  split; [reflexivity|]. destruct (Tracer.sampler t); simpl; tauto.
Qed.

(** *** Flushing the services *)

(** [flushServices] with a transport in place.  A disabled tracer, or
    one whose services are not modified,
    returns [nil] and stays as it was, without any event.  Otherwise,
    with a transport in place, [flushServices] makes exactly one call,
    [SendServices] on the whole current mapping, and returns what the
    transport answered; the mapping is kept either way, and the modified
    flag is cleared when the answer is [nil] and kept set when it is an
    error. *)
Theorem flushServices_spec (t : Tracer T) :
  (Tracer.enabled t = false \/ Tracer.servicesModified t = false ->
     flushServices t = Ok None t [])
  /\ (forall tr,
        Tracer.enabled t = true -> Tracer.servicesModified t = true ->
        Tracer.transport t = Some tr ->
        let '(err, tr') := SendServices (Tracer.services t) tr in
        let t' := Tracer.set_transport (Some tr') t in
        flushServices t
          = Ok err
               (match err with
                | Some _ => t'
                | None => Tracer.set_servicesModified false t'
                end)
               [EvSendServices (Tracer.services t)]
        /\ Tracer.services (final (flushServices t)) = Tracer.services t
        /\ (Tracer.servicesModified (final (flushServices t)) = false
            <-> err = None)).
Proof.
  split.
  - unfold flushServices, bind, get.
    intros [-> | ->]; [reflexivity|]. rewrite orb_true_r. reflexivity.
  - intros tr He Hm Ht.
    assert (Hrun : forall err tr',
      SendServices (Tracer.services t) tr = (err, tr') ->
      flushServices t
        = Ok err
             (match err with
              | Some _ => Tracer.set_transport (Some tr') t
              | None => Tracer.set_servicesModified false
                          (Tracer.set_transport (Some tr') t)
              end)
             [EvSendServices (Tracer.services t)]).
    { intros err tr' E.
      unfold flushServices, bind, get. rewrite He, Hm. simpl.
      unfold callSendServices. rewrite Ht, E. destruct err; reflexivity. }
    destruct (SendServices (Tracer.services t) tr) as [err tr'] eqn:E.
    rewrite (Hrun err tr' eq_refl). split; [reflexivity|].
    destruct err; simpl; rewrite ?Hm; split; try reflexivity;
      split; congruence.
Qed.

(** C9. [flushServices] tests the enabled flag and the modified flag and
    nothing else: on an enabled tracer with modified services and a nil
    transport it goes on to call through the nil interface and panics,
    having changed nothing, where [FlushTraces] on the same tracer sees
    the nil transport and returns [nil]. *)
Theorem flushServices_nil_transport (t : Tracer T) :
  Tracer.enabled t = true ->
  Tracer.servicesModified t = true ->
  Tracer.transport t = None ->
  flushServices t = Panic t []
  /\ exists evs, FlushTraces t
       = Ok None (Tracer.set_buffer (spansBuffer.Pop (Tracer.buffer t)).2 t)
            evs
     /\ filter is_transport_call evs = [].
Proof.
  intros He Hm Ht. split.
  - unfold flushServices, bind, get. rewrite He, Hm. simpl.
    unfold callSendServices. rewrite Ht. reflexivity.
  - unfold FlushTraces, bind, get, put, emit, emits, ret. simpl.
    destruct (Tracer.DebugLoggingEnabled t); rewrite He, Ht; simpl.
    + eexists. split; [reflexivity|].
      rewrite app_nil_r.
      induction (spansBuffer.spans (Tracer.buffer t)); [reflexivity|].
      simpl. assumption.
    + eexists. split; reflexivity.
Qed.

(** *** Flushing the traces *)

Lemma debugLines_no_transport_call (t : Tracer T) (spans : list Span) :
  filter is_transport_call (debugLines t spans) = [].
Proof.
  unfold debugLines. destruct (Tracer.DebugLoggingEnabled t); [|reflexivity].
  induction spans as [|s spans IH]; [reflexivity|]. exact IH.
Qed.

(** [FlushTraces], step by step: the buffer is popped, the debug lines
    are logged, and then the call bails out or submits. *)
Lemma FlushTraces_run (t : Tracer T) :
  let spans := spansBuffer.spans (Tracer.buffer t) in
  let t1 := Tracer.set_buffer (spansBuffer.Pop (Tracer.buffer t)).2 t in
  FlushTraces t =
    if negb (Tracer.enabled t) || isNil (Tracer.transport t)
       || (length spans =? 0)%nat
    then Ok None t1 (debugLines t spans)
    else callSendTracesAfter t1 (debugLines t spans)
           (collectTraces (groupByTrace spans)).
Proof.
  unfold FlushTraces, callSendTracesAfter, after, debugLines, bind, get,
    put, emit, emits, ret.
  simpl.
  destruct (Tracer.DebugLoggingEnabled t); simpl;
    destruct (negb (Tracer.enabled t) || isNil (Tracer.transport t)
              || (length (spansBuffer.spans (Tracer.buffer t)) =? 0)%nat);
    simpl; rewrite ?app_nil_r; try reflexivity;
    destruct (callSendTraces _ _); reflexivity.
Qed.

Lemma groupByTrace_snoc (spans : list Span) (s : Span) :
  groupByTrace (spans ++ [s])
    = <[Span.TraceID s :=
          default [] (groupByTrace spans !! Span.TraceID s) ++ [s]]>
        (groupByTrace spans).
Proof. unfold groupByTrace. rewrite foldl_app. reflexivity. Qed.

(** After the first loop the map holds, under each identifier that
    occurs, the spans that carry it, and nothing else. *)
Lemma groupByTrace_lookup (spans : list Span) (id : uint64) :
  groupByTrace spans !! id
    = match spansOfTrace spans id with
      | [] => None
      | group => Some group
      end.
Proof.
  induction spans as [|s spans IH] using rev_ind; [reflexivity|].
  rewrite groupByTrace_snoc. unfold spansOfTrace in *. rewrite filter_app.
  destruct (decide (Span.TraceID s = id)) as [Heq|Hne].
  - rewrite filter_cons_True by exact Heq. rewrite filter_nil, Heq.
    rewrite lookup_insert_eq, IH.
    destruct (filter _ spans); reflexivity.
  - rewrite lookup_insert_ne, IH, filter_cons_False, filter_nil, app_nil_r
      by assumption.
    reflexivity.
Qed.

Lemma spansOfTrace_nonempty (spans : list Span) (id : uint64) :
  spansOfTrace spans id <> [] <-> id ∈ traceIDs spans.
Proof.
  unfold traceIDs, spansOfTrace.
  rewrite elem_of_remove_dups, list_elem_of_fmap. split.
  - intros Hne. destruct (filter _ spans) as [|s grp] eqn:E; [congruence|].
    assert (Hs : s ∈ filter (fun s => Span.TraceID s = id) spans)
      by (rewrite E; left).
    apply list_elem_of_filter in Hs as [Hid Hs]. eauto.
  - intros (s & -> & Hs) E.
    exact (filter_nil_not_elem_of _ _ s E eq_refl Hs).
Qed.

Lemma groupByTrace_to_list (spans : list Span) :
  map_to_list (groupByTrace spans)
    ≡ₚ (fun id => (id, spansOfTrace spans id)) <$> traceIDs spans.
Proof.
  apply NoDup_Permutation.
  - apply NoDup_map_to_list.
  - apply NoDup_fmap_2_strong; [|apply NoDup_remove_dups].
    intros x y _ _ [= E _]. exact E.
  - intros [id group]. rewrite elem_of_map_to_list, groupByTrace_lookup.
    rewrite list_elem_of_fmap. split.
    + intros E. exists id.
      destruct (spansOfTrace spans id) as [|s grp] eqn:Hgrp; [discriminate|].
      injection E as <-. split; [congruence|].
      apply spansOfTrace_nonempty. congruence.
    + intros (id' & [= -> ->] & Hin).
      apply spansOfTrace_nonempty in Hin.
      destruct (spansOfTrace spans id'); congruence.
Qed.

Lemma collectTraces_snd (traceBuffer : gmap uint64 (list Span)) :
  collectTraces traceBuffer = snd <$> rangeOrder traceBuffer.
Proof.
  unfold collectTraces.
  induction (rangeOrder traceBuffer) as [|kv l IH] using rev_ind;
    [reflexivity|].
  rewrite foldl_app, fmap_app, IH. reflexivity.
Qed.

(** The trace groups [FlushTraces] builds: one per trace identifier, in
    some order. *)
Lemma collectTraces_groups (spans : list Span) :
  collectTraces (groupByTrace spans)
    ≡ₚ spansOfTrace spans <$> traceIDs spans.
Proof.
  rewrite collectTraces_snd, rangeOrder_perm, groupByTrace_to_list.
  rewrite <- list_fmap_compose. reflexivity.
Qed.

(** C6. [FlushTraces] never panics and always leaves the buffer empty;
    on a disabled tracer, with a nil transport or after an empty drain it
    returns [nil], changes nothing but the buffer, and calls no
    transport. *)
Theorem FlushTraces_bails (t : Tracer T) :
  (exists err t' evs,
     FlushTraces t = Ok err t' evs
     /\ spansBuffer.spans (Tracer.buffer t') = [])
  /\ (Tracer.enabled t = false \/ Tracer.transport t = None
      \/ spansBuffer.spans (Tracer.buffer t) = [] ->
      exists evs,
        FlushTraces t
          = Ok None
               (Tracer.set_buffer (spansBuffer.Pop (Tracer.buffer t)).2 t)
               evs
        /\ filter is_transport_call evs = []).
Proof.
  pose proof (FlushTraces_run t) as Hrun. simpl in Hrun. split.
  - rewrite Hrun.
    destruct (negb (Tracer.enabled t) || isNil (Tracer.transport t)
              || (length (spansBuffer.spans (Tracer.buffer t)) =? 0)%nat)
      eqn:Hbail.
    + eauto.
    + apply orb_false_elim in Hbail as [Hbail _].
      apply orb_false_elim in Hbail as [_ Hnil].
      unfold callSendTracesAfter, after, callSendTraces. simpl.
      destruct (Tracer.transport t) as [tr|]; [|discriminate].
      destruct (SendTraces _ tr) as [err tr']. eauto.
  - intros Hcase. rewrite Hrun.
    assert (negb (Tracer.enabled t) || isNil (Tracer.transport t)
            || (length (spansBuffer.spans (Tracer.buffer t)) =? 0)%nat
            = true) as ->.
    { destruct Hcase as [-> | [-> | ->]]; simpl;
        rewrite ?orb_true_r; reflexivity. }
    eexists. split; [reflexivity|]. apply debugLines_no_transport_call.
Qed.

(** C7. When [FlushTraces] submits (enabled tracer, transport in place,
    spans drained), it makes one transport call, [SendTraces], and the
    trace groups it hands over are, in some order, one group per trace
    identifier that occurs among the drained spans, each holding the
    drained spans of that identifier: as many groups as identifiers,
    every identifier's spans form a group, and every group is the spans
    of an identifier that occurs. *)
Theorem FlushTraces_groups (t : Tracer T) (tr : T) :
  Tracer.enabled t = true ->
  Tracer.transport t = Some tr ->
  spansBuffer.spans (Tracer.buffer t) <> [] ->
  let spans := spansBuffer.spans (Tracer.buffer t) in
  exists traces,
    filter is_transport_call (events (FlushTraces t)) = [EvSendTraces traces]
    /\ traces ≡ₚ spansOfTrace spans <$> traceIDs spans
    /\ length traces = length (traceIDs spans)
    /\ (forall id, id ∈ Span.TraceID <$> spans ->
          spansOfTrace spans id ∈ traces)
    /\ (forall group, group ∈ traces ->
          exists id, id ∈ Span.TraceID <$> spans
                     /\ group = spansOfTrace spans id).
Proof.
  intros He Ht Hspans spans.
  exists (collectTraces (groupByTrace spans)).
  pose proof (collectTraces_groups spans) as Hperm.
  split; [|split; [exact Hperm|split; [|split]]].
  - rewrite FlushTraces_run. simpl. fold spans. rewrite He, Ht. simpl.
    assert ((length spans =? 0)%nat = false) as ->.
    { subst spans. destruct (spansBuffer.spans _); [congruence|reflexivity]. }
    unfold callSendTracesAfter, after, callSendTraces. simpl. rewrite Ht.
    destruct (SendTraces _ tr) as [err tr']. simpl.
    rewrite filter_app, debugLines_no_transport_call. reflexivity.
  - rewrite Hperm, length_fmap. reflexivity.
  - intros id Hid. rewrite Hperm. apply list_elem_of_fmap.
    exists id. split; [reflexivity|]. apply elem_of_remove_dups, Hid.
  - intros group Hgroup. rewrite Hperm in Hgroup.
    apply list_elem_of_fmap in Hgroup as (id & -> & Hid).
    exists id. split; [|reflexivity]. apply elem_of_remove_dups, Hid.
Qed.

(** *** The service registry *)

Lemma Service_Equal_true (s s2 : Service) :
  Service.Equal s s2 = true <-> s = s2.
Proof.
  unfold Service.Equal. destruct s as [n a ty], s2 as [n2 a2 ty2]. simpl.
  rewrite !andb_true_iff, !bool_decide_eq_true. split.
  - intros [[-> ->] ->]. reflexivity.
  - intros [= -> -> ->]. auto.
Qed.

(** [appendService] by cases on what the registry holds under the name. *)
Lemma appendService_same (s : Service) (t : Tracer T) :
  Tracer.services t !! Service.Name s = Some s -> appendService s t = t.
Proof.
  intros E. unfold appendService. rewrite E. simpl.
  rewrite (proj2 (Service_Equal_true s s) eq_refl). reflexivity.
Qed.

Lemma appendService_changed (s : Service) (t : Tracer T) :
  Tracer.services t !! Service.Name s <> Some s ->
  appendService s t
    = Tracer.set_servicesModified true
        (Tracer.set_services
           (<[Service.Name s := s]> (Tracer.services t)) t).
Proof.
  intros Hne. unfold appendService.
  destruct (Tracer.services t !! Service.Name s) as [s0|]; [|reflexivity].
  simpl. destruct (Service.Equal s0 s) eqn:E; [|reflexivity].
  apply Service_Equal_true in E. congruence.
Qed.

Lemma appendService_lookup (s : Service) (t : Tracer T) :
  Tracer.services (appendService s t) !! Service.Name s = Some s.
Proof.
  destruct (decide (Tracer.services t !! Service.Name s = Some s)) as [E|E].
  - rewrite appendService_same; assumption.
  - rewrite appendService_changed by assumption. apply lookup_insert_eq.
Qed.

Lemma appendService_lookup_ne (s : Service) (t : Tracer T) (name : string) :
  Service.Name s <> name ->
  Tracer.services (appendService s t) !! name = Tracer.services t !! name.
Proof.
  intros Hne.
  destruct (decide (Tracer.services t !! Service.Name s = Some s)) as [E|E].
  - rewrite appendService_same; [reflexivity | assumption].
  - rewrite appendService_changed by assumption.
    apply lookup_insert_ne, Hne.
Qed.

Lemma appendService_modified (s : Service) (t : Tracer T) :
  Tracer.servicesModified t = true ->
  Tracer.servicesModified (appendService s t) = true.
Proof.
  intros Hm.
  destruct (decide (Tracer.services t !! Service.Name s = Some s)) as [E|E].
  - rewrite appendService_same; assumption.
  - rewrite appendService_changed by assumption. reflexivity.
Qed.

(** X2. [appendService] is an upsert: a service equal to the one the
    registry holds under its name changes nothing, the modified flag
    included; any other service is stored under its name and the flag is
    set.  Either way the registry then holds the service, and the other
    names are as before. *)
Theorem appendService_upsert (s : Service) (t : Tracer T) :
  (Tracer.services t !! Service.Name s = Some s -> appendService s t = t)
  /\ (Tracer.services t !! Service.Name s <> Some s ->
      appendService s t
        = Tracer.set_servicesModified true
            (Tracer.set_services
               (<[Service.Name s := s]> (Tracer.services t)) t))
  /\ Tracer.services (appendService s t) !! Service.Name s = Some s
  /\ (forall name, Service.Name s <> name ->
        Tracer.services (appendService s t) !! name
          = Tracer.services t !! name).
Proof.
  split; [apply appendService_same|].
  split; [apply appendService_changed|].
  split; [apply appendService_lookup|].
  intros name. apply appendService_lookup_ne.
Qed.

Lemma appendService_set_serviceChan (s : Service) (q : list Service)
    (t : Tracer T) :
  appendService s (Tracer.set_serviceChan q t)
    = Tracer.set_serviceChan q (appendService s t).
Proof.
  unfold appendService. simpl.
  destruct (Tracer.services t !! Service.Name s) as [s0|]; simpl;
    [destruct (Service.Equal s0 s)|]; reflexivity.
Qed.

Lemma applyServices_set_serviceChan (queued q : list Service) (t : Tracer T) :
  applyServices queued (Tracer.set_serviceChan q t)
    = Tracer.set_serviceChan q (applyServices queued t).
Proof.
  revert t. induction queued as [|s queued IH]; intros t; [reflexivity|].
  simpl. rewrite appendService_set_serviceChan. apply IH.
Qed.

Lemma drainLoop_applies (queued : list Service) (t : Tracer T) :
  Tracer.serviceChan t = queued ->
  drainLoop queued t = Tracer.set_serviceChan [] (applyServices queued t).
Proof.
  revert t. induction queued as [|s queued IH]; intros t Hq.
  - destruct t. simpl in *. subst. reflexivity.
  - simpl. rewrite IH.
    + rewrite appendService_set_serviceChan, applyServices_set_serviceChan.
      reflexivity.
    + rewrite appendService_set_serviceChan. reflexivity.
Qed.

Lemma applyServices_modified (queued : list Service) (t : Tracer T) :
  Tracer.servicesModified t = true ->
  Tracer.servicesModified (applyServices queued t) = true.
Proof.
  revert t. induction queued as [|s queued IH]; intros t Hm; [exact Hm|].
  simpl. apply IH, appendService_modified, Hm.
Qed.

Lemma applyServices_marks (queued : list Service) (t : Tracer T)
    (s : Service) :
  s ∈ queued ->
  Tracer.services t !! Service.Name s <> Some s ->
  Tracer.servicesModified (applyServices queued t) = true.
Proof.
  revert t. induction queued as [|x queued IH]; intros t Hin Hne.
  - inversion Hin.
  - simpl.
    destruct (decide (Tracer.services t !! Service.Name x = Some x)) as [E|E].
    + rewrite appendService_same by assumption. apply IH; [|assumption].
      apply elem_of_cons in Hin as [->|Hin]; [contradiction|assumption].
    + apply applyServices_modified.
      rewrite appendService_changed by assumption. reflexivity.
Qed.

Lemma applyServices_lookup_ne (queued : list Service) (t : Tracer T)
    (name : string) :
  (forall s, s ∈ queued -> Service.Name s <> name) ->
  Tracer.services (applyServices queued t) !! name
    = Tracer.services t !! name.
Proof.
  revert t. induction queued as [|x queued IH]; intros t Hq; [reflexivity|].
  simpl. rewrite IH.
  - apply appendService_lookup_ne, Hq. left.
  - intros s Hs. apply Hq. right. exact Hs.
Qed.

(** The last update queued for a name is what the registry holds under
    that name once the queue is applied. *)
Lemma applyServices_last (q1 q2 : list Service) (s : Service) (t : Tracer T) :
  (forall s', s' ∈ q2 -> Service.Name s' <> Service.Name s) ->
  Tracer.services (applyServices (q1 ++ s :: q2) t) !! Service.Name s
    = Some s.
Proof.
  intros Hlast. unfold applyServices. rewrite foldl_app. simpl.
  fold (applyServices q1 t).
  fold (applyServices q2 (appendService s (applyServices q1 t))).
  rewrite applyServices_lookup_ne by exact Hlast.
  apply appendService_lookup.
Qed.

(** *** The flush of the worker *)

Lemma sendsOnly_nil (m : gmap string Service) : sendsOnly m [].
Proof. intros m' H. inversion H. Qed.

Lemma sendsOnly_app (m : gmap string Service) (evs1 evs2 : list Event) :
  sendsOnly m evs1 -> sendsOnly m evs2 -> sendsOnly m (evs1 ++ evs2).
Proof.
  intros H1 H2 m' Hin. apply elem_of_app in Hin as [Hin|Hin]; auto.
Qed.

Lemma sendsOnly_cons_other (m : gmap string Service) (e : Event)
    (evs : list Event) :
  (forall m', e <> EvSendServices m') -> sendsOnly m evs ->
  sendsOnly m (e :: evs).
Proof.
  intros He H m' Hin. apply elem_of_cons in Hin as [Hin|Hin]; [|auto].
  symmetry in Hin. destruct (He _ Hin).
Qed.

Lemma sendsOnly_debugLines (m : gmap string Service) (t : Tracer T)
    (spans : list Span) :
  sendsOnly m (debugLines t spans).
Proof.
  unfold debugLines.
  destruct (Tracer.DebugLoggingEnabled t); [|apply sendsOnly_nil].
  apply sendsOnly_cons_other; [discriminate|].
  induction spans as [|s spans IH]; [apply sendsOnly_nil|].
  simpl. apply sendsOnly_cons_other; [discriminate | exact IH].
Qed.

(** With a transport in place [FlushTraces] returns; it touches the
    buffer and the transport only, and sends no service map. *)
Lemma FlushTraces_frame (t : Tracer T) (tr : T) :
  Tracer.transport t = Some tr ->
  exists err tr1 evs,
    FlushTraces t
      = Ok err
           (Tracer.set_transport (Some tr1)
              (Tracer.set_buffer (spansBuffer.Pop (Tracer.buffer t)).2 t))
           evs
    /\ forall m, sendsOnly m evs.
Proof.
  intros Ht. rewrite FlushTraces_run. simpl.
  destruct (negb (Tracer.enabled t) || isNil (Tracer.transport t)
            || (length (spansBuffer.spans (Tracer.buffer t)) =? 0)%nat).
  - exists None, tr, (debugLines t (spansBuffer.spans (Tracer.buffer t))).
    split; [|intros m; apply sendsOnly_debugLines].
    destruct t; simpl in *; subst; reflexivity.
  - unfold callSendTracesAfter, after, callSendTraces. simpl. rewrite Ht.
    destruct (SendTraces _ tr) as [err tr1].
    exists err, tr1. eexists. split; [reflexivity|].
    intros m. apply sendsOnly_app; [apply sendsOnly_debugLines|].
    apply sendsOnly_cons_other; [discriminate | apply sendsOnly_nil].
Qed.

(** With a transport in place [flushServices] returns; it touches the
    transport and the modified flag only, sends nothing but the current
    mapping, and does send it when the tracer is enabled and the
    services are modified. *)
Lemma flushServices_frame (t : Tracer T) (tr : T) :
  Tracer.transport t = Some tr ->
  exists err tr1 b evs,
    flushServices t
      = Ok err
           (Tracer.set_servicesModified b (Tracer.set_transport (Some tr1) t))
           evs
    /\ sendsOnly (Tracer.services t) evs
    /\ (Tracer.enabled t = true -> Tracer.servicesModified t = true ->
        evs = [EvSendServices (Tracer.services t)]).
Proof.
  intros Ht. unfold flushServices, bind, get.
  destruct (negb (Tracer.enabled t) || negb (Tracer.servicesModified t))
    eqn:Hskip; simpl.
  - exists None, tr, (Tracer.servicesModified t), []. split; [|split].
    + destruct t; simpl in *; subst; reflexivity.
    + apply sendsOnly_nil.
    + intros He Hm. rewrite He, Hm in Hskip. discriminate.
  - unfold callSendServices. rewrite Ht.
    destruct (SendServices (Tracer.services t) tr) as [[e|] tr1]; simpl.
    + exists (Some e), tr1, (Tracer.servicesModified t),
        [EvSendServices (Tracer.services t)].
      split; [|split].
      * destruct t; simpl in *; subst; reflexivity.
      * intros m' Hin. apply list_elem_of_singleton in Hin. congruence.
      * reflexivity.
    + exists None, tr1, false. eexists. split; [reflexivity|]. split.
      * intros m' Hin. apply list_elem_of_singleton in Hin. congruence.
      * reflexivity.
Qed.

(** With a transport in place [flush] returns; it leaves the registry,
    the enabled flag, the channels and the wait group alone, sends no
    service map but the current one, and does send it when the tracer is
    enabled and the services are modified. *)
Lemma flush_frame (t : Tracer T) (tr : T) :
  Tracer.transport t = Some tr ->
  exists t' evs,
    flush t = Ok tt t' evs
    /\ Tracer.services t' = Tracer.services t
    /\ Tracer.enabled t' = Tracer.enabled t
    /\ Tracer.serviceChan t' = Tracer.serviceChan t
    /\ Tracer.exit t' = Tracer.exit t
    /\ Tracer.exitWG t' = Tracer.exitWG t
    /\ sendsOnly (Tracer.services t) evs
    /\ (Tracer.enabled t = true -> Tracer.servicesModified t = true ->
        EvSendServices (Tracer.services t) ∈ evs).
Proof.
  intros Ht.
  destruct (FlushTraces_frame t tr Ht) as (err1 & tr1 & evs1 & E1 & Hevs1).
  set (t1 := Tracer.set_transport (Some tr1)
               (Tracer.set_buffer (spansBuffer.Pop (Tracer.buffer t)).2 t))
    in *.
  destruct (flushServices_frame t1 tr1 eq_refl)
    as (err2 & tr2 & b & evs2 & E2 & Hevs2 & Hsent).
  assert (Hlog1 : exists logs1,
    (forall m, sendsOnly m logs1)
    /\ match err1 with
       | Some e =>
           (emit (EvLog "cannot flush traces: %v" [ArgErr e]) ;;
            emit (EvLog "lost %d spans"
                    [ArgInt (Z.of_nat (spansBuffer.Len (Tracer.buffer t)))]))
       | None => ret tt
       end t1 = Ok tt t1 logs1).
  { destruct err1; eexists; (split; [|reflexivity]); intros m;
      repeat (apply sendsOnly_cons_other; [discriminate|]);
      apply sendsOnly_nil. }
  destruct Hlog1 as (logs1 & Hlogs1 & El1).
  assert (Hlog2 : exists logs2,
    (forall m, sendsOnly m logs2)
    /\ forall t2 : Tracer T,
       match err2 with
       | Some e => emit (EvLog "cannot flush services: %v" [ArgErr e])
       | None => ret tt
       end t2 = Ok tt t2 logs2).
  { destruct err2; eexists; (split; [|reflexivity]); intros m;
      repeat (apply sendsOnly_cons_other; [discriminate|]);
      apply sendsOnly_nil. }
  destruct Hlog2 as (logs2 & Hlogs2 & El2).
  exists (Tracer.set_servicesModified b (Tracer.set_transport (Some tr2) t1)),
    (evs1 ++ logs1 ++ evs2 ++ logs2).
  split; [|repeat split].
  - unfold flush, bind at 1 2. unfold get at 1. rewrite E1.
    unfold bind at 1. rewrite El1. unfold bind. rewrite E2, El2.
    simpl. reflexivity.
  - repeat apply sendsOnly_app; auto.
  - intros He Hm. rewrite (Hsent He Hm).
    rewrite !elem_of_app. right. right. left. left.
Qed.

(** *** Shutdown *)

(** One turn of the loop, then the rest of the schedule unless the turn
    returned from the worker or panicked. *)
Lemma workerLoop_cons (c : Selected) (sched : list Selected) (t : Tracer T) :
  workerLoop (c :: sched) t
    = match workerTurn c t with
      | Ok Stopped t' evs => Ok Stopped t' evs
      | Ok Running t' evs => after evs (workerLoop sched) t'
      | Panic t' evs => Panic t' evs
      end.
Proof.
  cbn [workerLoop]. unfold bind, after.
  destruct (workerTurn c t) as [[] t' evs|t' evs]; try reflexivity.
  unfold ret. rewrite app_nil_r. reflexivity.
Qed.

(** A case whose channel is not ready is not taken: the turn changes
    nothing and the loop goes on. *)
Lemma workerTurn_not_ready (c : Selected) (t : Tracer T) :
  ready c t = false -> workerTurn c t = Ok Running t [].
Proof.
  destruct c; simpl; [discriminate| |].
  - unfold workerTurn, bind, get.
    destruct (Tracer.serviceChan t); [reflexivity | discriminate].
  - intros Hexit. unfold workerTurn, bind, get. rewrite Hexit. reflexivity.
Qed.

(** The exit case of the worker's loop: drain, flush, return. *)
Lemma workerTurn_exit (t : Tracer T) :
  Tracer.exit t = true ->
  workerTurn caseExit t
    = match flush (drainServices t) with
      | Ok _ t' evs => Ok Stopped t' evs
      | Panic t' evs => Panic t' evs
      end.
Proof.
  intros Hexit. unfold workerTurn, bind, get, modify, ret.
  rewrite Hexit. cbv beta iota.
  destruct (flush (drainServices t)); rewrite ?app_nil_r; reflexivity.
Qed.

(** The shutdown with a transport in place.  When the worker takes the
    exit case (the exit channel has been
    closed, a transport is in place, the wait group still counts the
    worker), whatever the schedule holds after it: every service update
    queued on the channel is applied to the registry, oldest first, and
    the channel is left empty; then one flush runs on that registry; then
    the deferred calls run, the worker stops and the wait group is
    counted down, which releases [Stop] when the worker was the only one
    counted.  Every service map the flush hands to the transport is the
    registry with the queued updates applied; the last update queued for
    a name is in it; the flush does send it on an enabled tracer as soon
    as the registry is marked modified, which it is whenever a queued
    update differed from what the registry held. *)
Theorem worker_shutdown (t : Tracer T) (sched : list Selected) (n : nat) :
  Tracer.exit t = true ->
  isNil (Tracer.transport t) = false ->
  Tracer.exitWG t = S n ->
  let applied := applyServices (Tracer.serviceChan t) t in
  drainServices t = Tracer.set_serviceChan [] applied
  /\ (exists t' evs,
        flush (drainServices t) = Ok tt t' evs
        /\ worker (caseExit :: sched) t
             = Ok Stopped (Tracer.set_exitWG n t')
                  (evs ++ [EvTickerStop; EvDone])
        /\ Tracer.serviceChan t' = []
        /\ Tracer.services t' = Tracer.services applied
        /\ (n = 0%nat -> Stop_released (Tracer.set_exitWG n t') = true)
        /\ sendsOnly (Tracer.services applied) evs
        /\ (Tracer.enabled t = true ->
            Tracer.servicesModified applied = true ->
            EvSendServices (Tracer.services applied) ∈ evs))
  /\ (forall q1 s q2,
        Tracer.serviceChan t = q1 ++ s :: q2 ->
        (forall s', s' ∈ q2 -> Service.Name s' <> Service.Name s) ->
        Tracer.services applied !! Service.Name s = Some s)
  /\ (forall s,
        s ∈ Tracer.serviceChan t ->
        Tracer.services t !! Service.Name s <> Some s ->
        Tracer.servicesModified applied = true).
Proof.
  intros Hexit Htr Hwg applied.
  assert (Hdrain : drainServices t = Tracer.set_serviceChan [] applied)
    by (apply drainLoop_applies; reflexivity).
  assert (Happlied : Tracer.transport applied = Tracer.transport t
                     /\ Tracer.exitWG applied = Tracer.exitWG t
                     /\ Tracer.enabled applied = Tracer.enabled t).
  { subst applied. generalize (Tracer.serviceChan t) as q. clear.
    intros q. revert t. induction q as [|s q IH]; intros t; [auto|].
    simpl. destruct (IH (appendService s t)) as (-> & -> & ->).
    unfold appendService.
    destruct (Tracer.services t !! Service.Name s) as [s0|]; simpl;
      [destruct (Service.Equal s0 s)|]; auto. }
  destruct Happlied as (Htr' & Hwg' & Hen').
  destruct (Tracer.transport t) as [tr|] eqn:Ht; [|discriminate].
  destruct (flush_frame (drainServices t) tr)
    as (t' & evs & Eflush & Hsv & Hen & Hch & Hex & Hcnt & Honly & Hsent).
  { rewrite Hdrain. simpl. exact Htr'. }
  rewrite Hdrain in Hsv, Hen, Hch, Hcnt, Honly, Hsent. simpl in *.
  split; [exact Hdrain|]. split; [|split].
  - exists t', evs. split; [exact Eflush|]. split; [|repeat split].
    + unfold worker.
      rewrite workerLoop_cons, (workerTurn_exit t Hexit), Eflush.
      unfold ret, Done, bind, get, put, emit, panic.
      rewrite Hcnt, Hwg', Hwg. cbv beta iota.
      rewrite ?app_nil_r. reflexivity.
    + exact Hch.
    + exact Hsv.
    + intros ->. reflexivity.
    + exact Honly.
    + intros He Hm. apply Hsent; [congruence | exact Hm].
  - intros q1 s q2 Hq Hlast. subst applied. rewrite Hq.
    apply applyServices_last, Hlast.
  - intros s Hin Hne. subst applied.
    apply (applyServices_marks _ _ s); assumption.
Qed.

(** *** The steps of a flush, case by case *)

(** [FlushTraces] either bails out or submits to the transport it
    holds. *)
Lemma FlushTraces_cases (t : Tracer T) :
  let spans := spansBuffer.spans (Tracer.buffer t) in
  let t1 := Tracer.set_buffer (spansBuffer.Pop (Tracer.buffer t)).2 t in
  let traces := collectTraces (groupByTrace spans) in
  ((Tracer.enabled t = false \/ Tracer.transport t = None \/ spans = [])
   /\ FlushTraces t = Ok None t1 (debugLines t spans))
  \/ (exists tr,
        Tracer.enabled t = true /\ Tracer.transport t = Some tr
        /\ spans <> []
        /\ FlushTraces t
           = Ok (SendTraces traces tr).1
                (Tracer.set_transport (Some (SendTraces traces tr).2) t1)
                (debugLines t spans ++ [EvSendTraces traces])).
Proof.
  intros spans t1 traces. rewrite FlushTraces_run. fold spans t1 traces.
  destruct (Tracer.enabled t) eqn:He; [|left; split; [auto | reflexivity]].
  destruct (Tracer.transport t) as [tr|] eqn:Ht;
    [|left; split; [auto | reflexivity]].
  destruct spans as [|s spans'] eqn:Hs; [left; split; [auto | reflexivity]|].
  right. exists tr. repeat split; [discriminate|].
  simpl. unfold callSendTracesAfter, after, callSendTraces.
  subst t1. simpl. rewrite Ht.
  destruct (SendTraces traces tr) as [err tr']. reflexivity.
Qed.

(** [flushServices] skips, panics on the nil transport, or sends the
    mapping to the transport it holds. *)
Lemma flushServices_cases (t : Tracer T) :
  ((Tracer.enabled t = false \/ Tracer.servicesModified t = false)
   /\ flushServices t = Ok None t [])
  \/ (Tracer.enabled t = true /\ Tracer.servicesModified t = true
      /\ Tracer.transport t = None /\ flushServices t = Panic t [])
  \/ (exists tr,
        Tracer.enabled t = true /\ Tracer.servicesModified t = true
        /\ Tracer.transport t = Some tr
        /\ flushServices t
           = Ok (SendServices (Tracer.services t) tr).1
                (match (SendServices (Tracer.services t) tr).1 with
                 | Some _ => fun t' => t'
                 | None => Tracer.set_servicesModified false
                 end
                   (Tracer.set_transport
                      (Some (SendServices (Tracer.services t) tr).2) t))
                [EvSendServices (Tracer.services t)]).
Proof.
  unfold flushServices, bind, get.
  destruct (Tracer.enabled t) eqn:He; [|left; split; [auto | reflexivity]].
  destruct (Tracer.servicesModified t) eqn:Hm;
    [|left; split; [auto | reflexivity]].
  simpl. unfold callSendServices.
  destruct (Tracer.transport t) as [tr|] eqn:Ht.
  - right. right. exists tr. repeat split.
    destruct (SendServices (Tracer.services t) tr) as [[e|] tr'];
      reflexivity.
  - right. left. repeat split.
Qed.

(** [flush] is [FlushTraces], its log lines, [flushServices], its log
    line; a panic of either ends it there. *)
Lemma flush_run (t : Tracer T) :
  flush t
    = match FlushTraces t with
      | Ok err1 t1 evs1 =>
          let lost :=
            lostLines err1 (spansBuffer.Len (Tracer.buffer t)) in
          match flushServices t1 with
          | Ok err2 t2 evs2 =>
              Ok tt t2 (evs1 ++ lost ++ evs2 ++ servicesLines err2)
          | Panic t2 evs2 => Panic t2 (evs1 ++ lost ++ evs2)
          end
      | Panic t1 evs1 => Panic t1 evs1
      end.
Proof.
  unfold flush, bind at 1 2. unfold get at 1.
  destruct (FlushTraces t) as [err1 t1 evs1|t1 evs1]; [|reflexivity].
  unfold bind at 1.
  assert (Hlost :
    match err1 with
    | Some e =>
        (emit (EvLog "cannot flush traces: %v" [ArgErr e]) ;;
         emit (EvLog "lost %d spans"
                 [ArgInt (Z.of_nat (spansBuffer.Len (Tracer.buffer t)))]))
    | None => ret tt
    end t1
    = Ok tt t1 (lostLines err1 (spansBuffer.Len (Tracer.buffer t)))).
  { destruct err1; reflexivity. }
  rewrite Hlost. unfold bind.
  destruct (flushServices t1) as [err2 t2 evs2|t2 evs2]; [|reflexivity].
  destruct err2; reflexivity.
Qed.

(** *** More on services, flushes and the enabled flag *)

(** X3. [Equal] is equality of services: it answers true exactly when
    the two services agree on name, application and type, so it is
    reflexive and symmetric. *)
Theorem Service_Equal_structural (s s2 : Service) :
  (Service.Equal s s2 = true <-> s = s2)
  /\ Service.Equal s s = true
  /\ Service.Equal s s2 = Service.Equal s2 s.
Proof.
  split; [apply Service_Equal_true|]. split.
  - apply Service_Equal_true. reflexivity.
  - destruct (Service.Equal s s2) eqn:E, (Service.Equal s2 s) eqn:E2;
      try reflexivity.
    + apply Service_Equal_true in E. subst.
      rewrite (proj2 (Service_Equal_true s2 s2) eq_refl) in E2.
      discriminate.
    + apply Service_Equal_true in E2. subst.
      rewrite (proj2 (Service_Equal_true s s) eq_refl) in E.
      discriminate.
Qed.

(** X4. A flush of the traces right after another finds nothing to
    send: whatever the first one did, and also when its transport call
    failed, the second returns [nil], calls no transport and leaves the
    tracer as the first left it.  Drained spans are never kept for a
    retry. *)
Theorem FlushTraces_twice (t : Tracer T) :
  let t1 := final (FlushTraces t) in
  spansBuffer.spans (Tracer.buffer t1) = []
  /\ FlushTraces t1 = Ok None t1 (debugLines t1 [])
  /\ filter is_transport_call (events (FlushTraces t1)) = [].
Proof.
  assert (Hempty : forall t1 : Tracer T,
    spansBuffer.spans (Tracer.buffer t1) = [] ->
    FlushTraces t1 = Ok None t1 (debugLines t1 [])).
  { intros t1 Hb. destruct (FlushTraces_cases t1) as [[_ E]|(tr & _ & _ & Hne & _)].
    - rewrite E, Hb. f_equal.
      destruct t1 as [? ? [sp mx] ? ? ? ? ? ? ?]. simpl in *. subst.
      reflexivity.
    - simpl in Hne. congruence. }
  simpl.
  assert (Hb : spansBuffer.spans (Tracer.buffer (final (FlushTraces t))) = []).
  { destruct (FlushTraces_cases t) as [[_ E]|(tr & _ & _ & _ & E)];
      rewrite E; reflexivity. }
  split; [exact Hb|]. rewrite (Hempty _ Hb).
  split; [reflexivity|]. apply debugLines_no_transport_call.
Qed.

(** X5. The retry of [flushServices].  On an enabled tracer with
    modified services and a transport: when the transport accepts the
    mapping, the next [flushServices] returns [nil] without a call; when
    it refuses, the next [flushServices] hands it the same mapping
    again. *)
Theorem flushServices_retry (t : Tracer T) (tr : T) :
  Tracer.enabled t = true ->
  Tracer.servicesModified t = true ->
  Tracer.transport t = Some tr ->
  let t1 := final (flushServices t) in
  ((SendServices (Tracer.services t) tr).1 = None ->
     flushServices t1 = Ok None t1 [])
  /\ (forall e, (SendServices (Tracer.services t) tr).1 = Some e ->
        events (flushServices t1) = [EvSendServices (Tracer.services t)]).
Proof.
  intros He Hm Ht.
  destruct (flushServices_cases t)
    as [[[H|H] _]|[(_ & _ & H & _)|(tr' & _ & _ & Ht' & E)]];
    try congruence.
  assert (tr' = tr) as -> by congruence.
  simpl. rewrite E. simpl.
  destruct (SendServices (Tracer.services t) tr) as [[e|] tr1]; simpl.
  - split; [discriminate|]. intros _ _.
    destruct (flushServices_cases (Tracer.set_transport (Some tr1) t))
      as [[[H|H] _]|[(_ & _ & H & _)|(tr2 & _ & _ & _ & E2)]];
      simpl in *; try congruence.
    rewrite E2. reflexivity.
  - split; [|discriminate]. intros _.
    destruct (flushServices_cases
                (Tracer.set_servicesModified false
                   (Tracer.set_transport (Some tr1) t)))
      as [[_ E2]|[(_ & H & _)|(tr2 & _ & H & _)]];
      simpl in *; try congruence.
Qed.

(** X6. What [flush] sends.  With a transport in place [flush] returns,
    and its transport calls are, in this order: [SendTraces] with the
    trace groups when the tracer is enabled and spans were buffered, and
    [SendServices] with the registry when the tracer is enabled and the
    services are modified.  The second call is made whatever the first
    one answered. *)
Theorem flush_transport_calls (t : Tracer T) (tr : T) :
  Tracer.transport t = Some tr ->
  let spans := spansBuffer.spans (Tracer.buffer t) in
  exists t' evs,
    flush t = Ok tt t' evs
    /\ filter is_transport_call evs
       = (if Tracer.enabled t && negb (length spans =? 0)%nat
          then [EvSendTraces (collectTraces (groupByTrace spans))]
          else [])
         ++ (if Tracer.enabled t && Tracer.servicesModified t
             then [EvSendServices (Tracer.services t)]
             else []).
Proof.
  intros Ht spans.
  assert (Hlost : forall err n,
            filter is_transport_call (lostLines err n) = [])
    by (intros [e|] n; reflexivity).
  assert (Hsvc : forall err,
            filter is_transport_call (servicesLines err) = [])
    by (intros [e|]; reflexivity).
  rewrite flush_run.
  destruct (FlushTraces_cases t)
    as [[Hbail E1]|(tr0 & He & Ht0 & Hne & E1)]; rewrite E1; simpl.
  - assert (Hguard : Tracer.enabled t && negb (length spans =? 0)%nat
                     = false).
    { destruct Hbail as [->|[H|H]]; [reflexivity|congruence|].
      fold spans in H. rewrite H. apply andb_false_r. }
    rewrite Hguard.
    destruct (flushServices_cases
                (Tracer.set_buffer (spansBuffer.Pop (Tracer.buffer t)).2 t))
      as [[Hskip E2]|[(_ & _ & H & _)|(tr2 & He2 & Hm2 & _ & E2)]];
      simpl in *; try congruence; rewrite E2.
    + do 2 eexists. split; [reflexivity|].
      rewrite !filter_app, debugLines_no_transport_call. simpl.
      destruct Hskip as [->| ->]; rewrite ?andb_false_r; reflexivity.
    + do 2 eexists. split; [reflexivity|].
      rewrite !filter_app, debugLines_no_transport_call, Hsvc.
      rewrite He2, Hm2. reflexivity.
  - assert (Hguard : Tracer.enabled t && negb (length spans =? 0)%nat
                     = true).
    { rewrite He. fold spans in Hne. destruct spans; [congruence|reflexivity]. }
    rewrite Hguard.
    destruct (flushServices_cases
                (Tracer.set_transport
                   (Some (SendTraces
                            (collectTraces
                               (groupByTrace
                                  (spansBuffer.spans (Tracer.buffer t))))
                            tr0).2)
                   (Tracer.set_buffer
                      (spansBuffer.Pop (Tracer.buffer t)).2 t)))
      as [[Hskip E2]|[(_ & _ & H & _)|(tr2 & He2 & Hm2 & _ & E2)]];
      simpl in *; try congruence; rewrite E2.
    + do 2 eexists. split; [reflexivity|].
      rewrite !filter_app, debugLines_no_transport_call, Hlost. simpl.
      destruct Hskip as [H|H]; [congruence|]. rewrite H, andb_false_r.
      reflexivity.
    + do 2 eexists. split; [reflexivity|].
      rewrite !filter_app, debugLines_no_transport_call, Hlost, Hsvc.
      rewrite He, Hm2. reflexivity.
Qed.

(** X7. Spans lost on a failed submission.  When the transport refuses
    the traces with an error, [flush] logs that error and then the number
    of spans that were in the buffer; the buffer is empty afterwards, so
    those spans are gone; and the services are still flushed, modified
    services being handed to the transport after the two log lines. *)
Theorem flush_logs_lost (t : Tracer T) (tr : T) (e : error) :
  Tracer.enabled t = true ->
  Tracer.transport t = Some tr ->
  spansBuffer.spans (Tracer.buffer t) <> [] ->
  let spans := spansBuffer.spans (Tracer.buffer t) in
  let traces := collectTraces (groupByTrace spans) in
  (SendTraces traces tr).1 = Some e ->
  exists t' evs,
    flush t
      = Ok tt t'
           (debugLines t spans
            ++ [EvSendTraces traces;
                EvLog "cannot flush traces: %v" [ArgErr e];
                EvLog "lost %d spans" [ArgInt (Z.of_nat (length spans))]]
            ++ evs)
    /\ spansBuffer.spans (Tracer.buffer t') = []
    /\ (Tracer.servicesModified t = true ->
        EvSendServices (Tracer.services t) ∈ evs).
Proof.
  intros He Ht Hne spans traces Herr. rewrite flush_run.
  destruct (FlushTraces_cases t)
    as [[[H|[H|H]] _]|(tr0 & _ & Ht0 & _ & E1)]; try congruence.
  assert (tr0 = tr) as -> by congruence.
  rewrite E1. fold spans traces. rewrite Herr. simpl.
  destruct (flushServices_cases
              (Tracer.set_transport (Some (SendTraces traces tr).2)
                 (Tracer.set_buffer (spansBuffer.Pop (Tracer.buffer t)).2 t)))
    as [[Hskip E2]|[(_ & _ & H & _)|(tr2 & _ & _ & _ & E2)]];
    simpl in *; try congruence; rewrite E2.
  - do 2 eexists. split; [|split].
    + rewrite <- app_assoc. reflexivity.
    + reflexivity.
    + intros Hm. destruct Hskip; congruence.
  - do 2 eexists. split; [|split].
    + rewrite <- app_assoc. reflexivity.
    + destruct (SendServices _ tr2).1; reflexivity.
    + intros _. left.
Qed.

(** X8. A disabled tracer.  After [SetEnabled(false)], [Enabled]
    answers false, [record] leaves the tracer as it is, and [flush]
    empties the buffer without a transport call, also with a nil
    transport: the spans buffered before are dropped, while the registry
    and its modified flag stay as they were, for a later flush. *)
Theorem disabled_tracer_drops (t : Tracer T) :
  let t0 := SetEnabled false t in
  let spans := spansBuffer.spans (Tracer.buffer t) in
  Enabled t0 = false
  /\ (forall span, record span t0 = t0)
  /\ flush t0
     = Ok tt (Tracer.set_buffer (spansBuffer.Pop (Tracer.buffer t)).2 t0)
          (debugLines t spans)
  /\ filter is_transport_call (events (flush t0)) = []
  /\ Tracer.services (final (flush t0)) = Tracer.services t
  /\ Tracer.servicesModified (final (flush t0)) = Tracer.servicesModified t.
Proof.
  simpl.
  assert (Hflush :
    flush (SetEnabled false t)
    = Ok tt (Tracer.set_buffer (spansBuffer.Pop (Tracer.buffer t)).2
               (SetEnabled false t))
         (debugLines t (spansBuffer.spans (Tracer.buffer t)))).
  { rewrite flush_run.
    destruct (FlushTraces_cases (SetEnabled false t))
      as [[_ E1]|(tr0 & He & _)]; [|discriminate He].
    rewrite E1. cbv zeta.
    destruct (flushServices_cases
                (Tracer.set_buffer
                   (spansBuffer.Pop (Tracer.buffer (SetEnabled false t))).2
                   (SetEnabled false t)))
      as [[_ E2]|[(He & _)|(tr2 & He & _)]]; try discriminate He.
    rewrite E2. simpl. rewrite !app_nil_r. reflexivity. }
  split; [reflexivity|]. split; [reflexivity|].
  split; [exact Hflush|]. rewrite Hflush. simpl.
  split; [apply debugLines_no_transport_call|]. split; reflexivity.
Qed.

(** X9. The nil transport.  On a tracer without a transport [flush]
    panics exactly when the tracer is enabled and its services are
    modified; buffered spans alone never make it panic.  Either way no
    transport is called and the buffer is left empty. *)
Theorem flush_nil_transport (t : Tracer T) :
  Tracer.transport t = None ->
  (isPanic (flush t)
   <-> Tracer.enabled t = true /\ Tracer.servicesModified t = true)
  /\ filter is_transport_call (events (flush t)) = []
  /\ spansBuffer.spans (Tracer.buffer (final (flush t))) = [].
Proof.
  intros Ht. rewrite flush_run.
  destruct (FlushTraces_cases t) as [[_ E1]|(tr0 & _ & H & _)];
    [|congruence].
  rewrite E1. simpl.
  destruct (flushServices_cases
              (Tracer.set_buffer (spansBuffer.Pop (Tracer.buffer t)).2 t))
    as [[Hskip E2]|[(He & Hm & _ & E2)|(tr2 & _ & _ & H & _)]];
    simpl in *; try congruence; rewrite E2; simpl.
  - split; [|split; [|reflexivity]].
    + split; [contradiction|]. intros [He Hm]. destruct Hskip; congruence.
    + rewrite !app_nil_r. apply debugLines_no_transport_call.
  - split; [|split; [|reflexivity]].
    + split; auto.
    + rewrite !app_nil_r. apply debugLines_no_transport_call.
Qed.

(** *** The trace groups as a partition *)

Lemma concat_perm {A} (l k : list (list A)) :
  l ≡ₚ k -> concat l ≡ₚ concat k.
Proof.
  induction 1 as [|x l k _ IH|x y l|l k m _ IH1 _ IH2]; simpl.
  - reflexivity.
  - rewrite IH. reflexivity.
  - rewrite !app_assoc. f_equiv. apply Permutation_app_comm.
  - rewrite IH1. exact IH2.
Qed.

Lemma concat_groups_nil (ids : list uint64) :
  concat (spansOfTrace [] <$> ids) = [].
Proof. induction ids as [|id ids IH]; [reflexivity | exact IH]. Qed.

Lemma concat_groups_cons (ids : list uint64) (s : Span) (l : list Span) :
  NoDup ids -> Span.TraceID s ∈ ids ->
  concat (spansOfTrace (s :: l) <$> ids)
    ≡ₚ s :: concat (spansOfTrace l <$> ids).
Proof.
  induction ids as [|id ids IH]; intros Hnd Hin; [inversion Hin|].
  apply NoDup_cons in Hnd as [Hid Hnd]. rewrite !fmap_cons. cbn [concat].
  destruct (decide (Span.TraceID s = id)) as [E|E].
  - assert (Hhead : spansOfTrace (s :: l) id = s :: spansOfTrace l id)
      by (apply filter_cons_True; exact E).
    assert (Hext : spansOfTrace (s :: l) <$> ids = spansOfTrace l <$> ids).
    { apply list_fmap_ext. intros i id' Hid'.
      unfold spansOfTrace. apply filter_cons_False.
      intros E'. apply Hid. rewrite <- E, E'.
      apply list_elem_of_lookup. eauto. }
    rewrite Hhead, Hext. reflexivity.
  - assert (Hhead : spansOfTrace (s :: l) id = spansOfTrace l id)
      by (apply filter_cons_False; exact E).
    apply elem_of_cons in Hin as [Hin|Hin]; [congruence|].
    rewrite Hhead, (IH Hnd Hin). symmetry. apply Permutation_middle.
Qed.

(** The groups of a list of identifiers that covers the spans hold every
    span once. *)
Lemma concat_groups (ids : list uint64) (l : list Span) :
  NoDup ids -> (forall s, s ∈ l -> Span.TraceID s ∈ ids) ->
  concat (spansOfTrace l <$> ids) ≡ₚ l.
Proof.
  intros Hnd. induction l as [|s l IH]; intros Hcover.
  - rewrite concat_groups_nil. reflexivity.
  - rewrite concat_groups_cons; [|exact Hnd|apply Hcover; left].
    f_equiv. apply IH. intros s' Hs'. apply Hcover. right. exact Hs'.
Qed.

Lemma debugLines_logs (t : Tracer T) (spans : list Span) (e : Event) :
  e ∈ debugLines t spans -> exists format args, e = EvLog format args.
Proof.
  unfold debugLines.
  destruct (Tracer.DebugLoggingEnabled t); [|intros H; inversion H].
  intros H. apply elem_of_cons in H as [->|H]; [eauto|].
  apply list_elem_of_In, in_map_iff in H as (s & <- & _). eauto.
Qed.

(** X10. The trace groups of a submission are a partition of the drained
    spans: put together they are the drained spans, each as often as it
    was buffered; no group is empty; the spans of a group share their
    trace identifier; and two groups never share one. *)
Theorem FlushTraces_partition (t : Tracer T) (tr : T) :
  Tracer.enabled t = true ->
  Tracer.transport t = Some tr ->
  spansBuffer.spans (Tracer.buffer t) <> [] ->
  let spans := spansBuffer.spans (Tracer.buffer t) in
  exists traces,
    filter is_transport_call (events (FlushTraces t)) = [EvSendTraces traces]
    /\ concat traces ≡ₚ spans
    /\ Forall (fun group => group <> []) traces
    /\ (forall group a b, group ∈ traces -> a ∈ group -> b ∈ group ->
          Span.TraceID a = Span.TraceID b)
    /\ (forall group1 group2 a b,
          group1 ∈ traces -> group2 ∈ traces ->
          a ∈ group1 -> b ∈ group2 ->
          Span.TraceID a = Span.TraceID b -> group1 = group2).
Proof.
  intros He Ht Hne spans.
  exists (collectTraces (groupByTrace spans)).
  pose proof (collectTraces_groups spans) as Hperm.
  assert (Hgroup : forall group,
    group ∈ collectTraces (groupByTrace spans) ->
    exists id, id ∈ traceIDs spans /\ group = spansOfTrace spans id).
  { intros group Hg. rewrite Hperm in Hg.
    apply list_elem_of_fmap in Hg as (id & -> & Hid). eauto. }
  assert (Hid : forall id a, a ∈ spansOfTrace spans id -> Span.TraceID a = id).
  { intros id a Ha. apply list_elem_of_filter in Ha as [Ha _]. exact Ha. }
  split; [|split; [|split; [|split]]].
  - destruct (FlushTraces_cases t)
      as [[[H|[H|H]] _]|(tr0 & _ & _ & _ & E)]; try congruence.
    rewrite E. simpl. fold spans.
    rewrite filter_app, debugLines_no_transport_call. reflexivity.
  - rewrite (concat_perm _ _ Hperm). apply concat_groups.
    + apply NoDup_remove_dups.
    + intros s Hs. apply elem_of_remove_dups, list_elem_of_fmap. eauto.
  - apply Forall_forall. intros group Hg.
    destruct (Hgroup group Hg) as (id & Hin & ->).
    apply spansOfTrace_nonempty, Hin.
  - intros group a b Hg Ha Hb.
    destruct (Hgroup group Hg) as (id & _ & ->).
    rewrite (Hid id a Ha), (Hid id b Hb). reflexivity.
  - intros g1 g2 a b Hg1 Hg2 Ha Hb Hab.
    destruct (Hgroup g1 Hg1) as (id1 & _ & ->).
    destruct (Hgroup g2 Hg2) as (id2 & _ & ->).
    rewrite (Hid id1 a Ha), (Hid id2 b Hb) in Hab. subst. reflexivity.
Qed.

(** X11. Only kept spans travel.  If every buffered span is kept, then
    this is still so after [record] of any span, kept or not, and after
    [FlushTraces]; and every span of every trace group [FlushTraces]
    hands to the transport is kept. *)
Theorem kept_spans_only (t : Tracer T) :
  bufferKept t ->
  (forall span, bufferKept (record span t))
  /\ bufferKept (final (FlushTraces t))
  /\ (forall traces, EvSendTraces traces ∈ events (FlushTraces t) ->
        Forall (Forall (fun s => Span.Sampled s = true)) traces).
Proof.
  unfold bufferKept. intros Hkept. split; [|split].
  - intros span. unfold record.
    destruct (Tracer.enabled t); [|exact Hkept]. simpl.
    destruct (Span.Sampled span) eqn:Hs; [|exact Hkept]. simpl.
    unfold spansBuffer.Push. destruct (decide _); [|exact Hkept]. simpl.
    apply Forall_app. split; [exact Hkept|]. constructor; [exact Hs|constructor].
  - destruct (FlushTraces_cases t) as [[_ E]|(tr0 & _ & _ & _ & E)];
      rewrite E; simpl; constructor.
  - intros traces Hin.
    destruct (FlushTraces_cases t) as [[_ E]|(tr0 & _ & _ & _ & E)];
      rewrite E in Hin; simpl in Hin.
    + apply debugLines_logs in Hin as (f & a & Hin). discriminate.
    + apply elem_of_app in Hin as [Hin|Hin].
      { apply debugLines_logs in Hin as (f & a & Hin). discriminate. }
      apply list_elem_of_singleton in Hin. injection Hin as ->.
      rewrite collectTraces_groups. apply Forall_fmap, Forall_forall.
      intros id _. simpl. apply Forall_forall. intros s Hs.
      apply list_elem_of_filter in Hs as [_ Hs].
      exact (proj1 (Forall_forall _ _) Hkept s Hs).
Qed.

(** *** The worker before and at the exit *)

Lemma after_nil {A} (m : M (Tracer T) A) (t : Tracer T) :
  after [] m t = m t.
Proof. unfold after. destruct (m t); reflexivity. Qed.

(** [appendService] touches the registry and its flag only. *)
Lemma appendService_shape (s : Service) (t : Tracer T) :
  exists services modified,
    appendService s t
      = Tracer.set_servicesModified modified
          (Tracer.set_services services t).
Proof.
  exists (Tracer.services (appendService s t)),
         (Tracer.servicesModified (appendService s t)).
  unfold appendService.
  destruct (Tracer.services t !! Service.Name s) as [s0|]; simpl;
    [destruct (Service.Equal s0 s); simpl|]; destruct t; reflexivity.
Qed.

(** The service case of the loop: the oldest queued update is applied,
    nothing is sent or logged, the worker goes on. *)
Lemma workerTurn_service (t : Tracer T) :
  workerTurn caseService t
    = Ok Running
         match Tracer.serviceChan t with
         | service :: queued =>
             appendService service (Tracer.set_serviceChan queued t)
         | [] => t
         end [].
Proof.
  unfold workerTurn, bind, get. destruct (Tracer.serviceChan t); reflexivity.
Qed.

(** The tick case of the loop: one flush, the worker goes on. *)
Lemma workerTurn_tick (t : Tracer T) :
  workerTurn caseTick t
    = match flush t with
      | Ok _ t' evs => Ok Running t' evs
      | Panic t' evs => Panic t' evs
      end.
Proof.
  unfold workerTurn, bind, get, ret. cbv beta iota.
  destruct (flush t); rewrite ?app_nil_r; reflexivity.
Qed.

Lemma drainServices_after_turn (t : Tracer T) :
  drainServices (final (workerTurn caseService t)) = drainServices t.
Proof.
  rewrite workerTurn_service. simpl. unfold drainServices.
  destruct (Tracer.serviceChan t) as [|s q] eqn:Hq; [rewrite Hq; reflexivity|].
  destruct (appendService_shape s (Tracer.set_serviceChan q t))
    as (m & b & E).
  simpl. rewrite E. reflexivity.
Qed.

(** X12. It makes no difference whether queued service updates are
    received by the loop or drained at the exit.  Once the exit channel
    is closed, a worker that first takes the service case any number of
    times and then the exit case ends exactly as a worker that takes the
    exit case at once: same final tracer, same events, and the service
    case itself sends and logs nothing. *)
Theorem service_turns_then_exit (k : nat) (rest : list Selected)
    (t : Tracer T) :
  Tracer.exit t = true ->
  worker (replicate k caseService ++ caseExit :: rest) t
    = worker (caseExit :: rest) t
  /\ events (workerTurn caseService t) = [].
Proof.
  intros Hexit. split; [|rewrite workerTurn_service; reflexivity].
  assert (Hloop :
    workerLoop (replicate k caseService ++ caseExit :: rest) t
    = workerLoop (caseExit :: rest) t).
  { revert t Hexit. induction k as [|k IH]; intros t Hexit; [reflexivity|].
    cbn [replicate app]. rewrite workerLoop_cons.
    pose proof (drainServices_after_turn t) as Hdrain.
    rewrite workerTurn_service in *. simpl in Hdrain.
    rewrite after_nil.
    set (t' := match Tracer.serviceChan t with
               | service :: queued =>
                   appendService service (Tracer.set_serviceChan queued t)
               | [] => t
               end) in *.
    assert (Hexit' : Tracer.exit t' = true).
    { subst t'. destruct (Tracer.serviceChan t) as [|s q]; [exact Hexit|].
      destruct (appendService_shape s (Tracer.set_serviceChan q t))
        as (m & b & ->). exact Hexit. }
    rewrite (IH t' Hexit'), !workerLoop_cons.
    rewrite (workerTurn_exit t' Hexit'), (workerTurn_exit t Hexit), Hdrain.
    reflexivity. }
  unfold worker. rewrite Hloop. reflexivity.
Qed.

Lemma debugLines_no_deferred_call (t : Tracer T) (spans : list Span) :
  filter is_deferred_call (debugLines t spans) = [].
Proof.
  unfold debugLines. destruct (Tracer.DebugLoggingEnabled t); [|reflexivity].
  induction spans as [|s spans IH]; [reflexivity|]. exact IH.
Qed.

(** With a transport in place [flush] returns with a transport in place,
    leaves the exit channel and the wait group alone, and runs none of
    the worker's deferred calls. *)
Lemma flush_keeps_running (t : Tracer T) :
  isNil (Tracer.transport t) = false ->
  exists t' evs,
    flush t = Ok tt t' evs
    /\ isNil (Tracer.transport t') = false
    /\ Tracer.exit t' = Tracer.exit t
    /\ Tracer.exitWG t' = Tracer.exitWG t
    /\ filter is_deferred_call evs = [].
Proof.
  intros Htr.
  assert (Hlost : forall err n, filter is_deferred_call (lostLines err n) = [])
    by (intros [e|] n; reflexivity).
  assert (Hsvc : forall err, filter is_deferred_call (servicesLines err) = [])
    by (intros [e|]; reflexivity).
  rewrite flush_run.
  destruct (FlushTraces_cases t) as [[_ E1]|(tr0 & _ & _ & _ & E1)];
    rewrite E1; cbv zeta;
    match goal with
    | |- context [flushServices ?t1] =>
        destruct (flushServices_cases t1)
          as [[_ E2]|[(_ & _ & H & _)|(tr2 & _ & _ & _ & E2)]];
        [| simpl in H;
           first [discriminate H | rewrite H in Htr; discriminate Htr] |];
        rewrite E2
    end;
    do 2 eexists; (split; [reflexivity|]);
    repeat split;
    try (destruct (SendServices _ _).1; simpl; first [exact Htr|reflexivity]);
    try exact Htr;
    rewrite ?filter_app, ?debugLines_no_deferred_call, ?Hlost, ?Hsvc;
    reflexivity.
Qed.

(** X13. The worker stops on the exit channel only.  As long as the exit
    channel is open and a transport is in place, the worker is still in
    its loop after any schedule of ticks and service updates, exit cases
    taken in vain included: it has not returned, the exit channel is
    still open, the wait group still counts it, and neither deferred call
    has run. *)
Theorem worker_runs_until_exit (sched : list Selected) (t : Tracer T) :
  Tracer.exit t = false ->
  isNil (Tracer.transport t) = false ->
  exists t' evs,
    worker sched t = Ok Running t' evs
    /\ Tracer.exit t' = false
    /\ Tracer.exitWG t' = Tracer.exitWG t
    /\ filter is_deferred_call evs = [].
Proof.
  intros Hexit Htr.
  assert (Hloop : exists t' evs,
    workerLoop sched t = Ok Running t' evs
    /\ Tracer.exit t' = false
    /\ Tracer.exitWG t' = Tracer.exitWG t
    /\ filter is_deferred_call evs = []).
  { revert t Hexit Htr.
    induction sched as [|c sched IH]; intros t Hexit Htr.
    { exists t, []. repeat split; first [assumption | reflexivity]. }
    assert (Hturn : exists t1 evs1,
      workerTurn c t = Ok Running t1 evs1
      /\ Tracer.exit t1 = false
      /\ isNil (Tracer.transport t1) = false
      /\ Tracer.exitWG t1 = Tracer.exitWG t
      /\ filter is_deferred_call evs1 = []).
    { destruct c.
      - rewrite workerTurn_tick.
        destruct (flush_keeps_running t Htr)
          as (t1 & evs1 & -> & Htr1 & Hex1 & Hwg1 & Hevs1).
        exists t1, evs1. repeat split; congruence.
      - rewrite workerTurn_service. do 2 eexists.
        split; [reflexivity|].
        destruct (Tracer.serviceChan t) as [|s q];
          [repeat split; first [assumption | reflexivity]|].
        destruct (appendService_shape s (Tracer.set_serviceChan q t))
          as (m & b & ->).
        repeat split; first [assumption | reflexivity].
      - rewrite workerTurn_not_ready by exact Hexit.
        exists t, []. repeat split; first [assumption | reflexivity]. }
    destruct Hturn as (t1 & evs1 & E1 & Hex1 & Htr1 & Hwg1 & Hevs1).
    destruct (IH t1 Hex1 Htr1) as (t' & evs & E & Hex & Hwg & Hevs).
    exists t', (evs1 ++ evs).
    rewrite workerLoop_cons, E1. unfold after. rewrite E.
    repeat split; [exact Hex|congruence|].
    rewrite filter_app, Hevs1, Hevs. reflexivity. }
  destruct Hloop as (t' & evs & E & Hex & Hwg & Hevs).
  exists t', evs. unfold worker. rewrite E. repeat split; assumption.
Qed.

(** *** The registry as an invariant of the worker *)

(** No flush changes the registry, not even one that panics. *)
Lemma flush_services (t : Tracer T) :
  Tracer.services (final (flush t)) = Tracer.services t.
Proof.
  rewrite flush_run.
  destruct (FlushTraces_cases t) as [[_ E1]|(tr0 & _ & _ & _ & E1)];
    rewrite E1; cbv zeta;
    match goal with
    | |- context [flushServices ?t1] =>
        destruct (flushServices_cases t1)
          as [[_ E2]|[(_ & _ & _ & E2)|(tr2 & _ & _ & _ & E2)]];
        rewrite E2
    end;
    simpl; try destruct (SendServices _ _).1; reflexivity.
Qed.

Lemma registryKeyed_appendService (s : Service) (t : Tracer T) :
  registryKeyed (Tracer.services t) ->
  registryKeyed (Tracer.services (appendService s t)).
Proof.
  intros Hkeyed name s' Hlook.
  destruct (decide (Service.Name s = name)) as [<-|Hne].
  - rewrite appendService_lookup in Hlook. congruence.
  - rewrite appendService_lookup_ne in Hlook by exact Hne.
    exact (Hkeyed _ _ Hlook).
Qed.

Lemma registryKeyed_drainLoop (queued : list Service) (t : Tracer T) :
  registryKeyed (Tracer.services t) ->
  registryKeyed (Tracer.services (drainLoop queued t)).
Proof.
  revert t. induction queued as [|s q IH]; intros t Hkeyed; [exact Hkeyed|].
  simpl. apply IH, registryKeyed_appendService. exact Hkeyed.
Qed.

Lemma registryKeyed_workerTurn (c : Selected) (t : Tracer T) :
  registryKeyed (Tracer.services t) ->
  registryKeyed (Tracer.services (final (workerTurn c t))).
Proof.
  intros Hkeyed. destruct c.
  - rewrite workerTurn_tick.
    pose proof (flush_services t) as Hflush.
    destruct (flush t); simpl in *; rewrite Hflush; exact Hkeyed.
  - rewrite workerTurn_service. simpl.
    destruct (Tracer.serviceChan t) as [|s q]; [exact Hkeyed|].
    apply registryKeyed_appendService. exact Hkeyed.
  - destruct (Tracer.exit t) eqn:Hexit.
    + rewrite workerTurn_exit by exact Hexit.
      pose proof (flush_services (drainServices t)) as Hflush.
      destruct (flush (drainServices t)); simpl in *; rewrite Hflush;
        apply registryKeyed_drainLoop; exact Hkeyed.
    + rewrite workerTurn_not_ready by exact Hexit. exact Hkeyed.
Qed.

Lemma registryKeyed_workerLoop (sched : list Selected) (t : Tracer T) :
  registryKeyed (Tracer.services t) ->
  registryKeyed (Tracer.services (final (workerLoop sched t))).
Proof.
  revert t. induction sched as [|c sched IH]; intros t Hkeyed;
    [exact Hkeyed|].
  rewrite workerLoop_cons.
  pose proof (registryKeyed_workerTurn c t Hkeyed) as Hturn.
  destruct (workerTurn c t) as [[] t1 evs1|t1 evs1]; simpl in Hturn;
    try exact Hturn.
  pose proof (IH t1 Hturn) as Hrest. unfold after.
  destruct (workerLoop sched t1); exact Hrest.
Qed.

(** X14. The registry is keyed by name, always.  A new tracer's registry
    holds every service under its own name (it is empty); [appendService]
    keeps it so; and so does the worker along any schedule, whether it is
    still running, has returned or has panicked. *)
Theorem registry_keyed_by_name (transport : option T) :
  registryKeyed (Tracer.services (NewTracerTransport transport))
  /\ forall t : Tracer T,
       registryKeyed (Tracer.services t) ->
       (forall s, registryKeyed (Tracer.services (appendService s t)))
       /\ (forall sched,
             registryKeyed (Tracer.services (final (worker sched t)))).
Proof.
  split; [intros name s H; simpl in H; rewrite lookup_empty in H;
          discriminate|].
  intros t Hkeyed. split.
  - intros s. apply registryKeyed_appendService, Hkeyed.
  - intros sched.
    pose proof (registryKeyed_workerLoop sched t Hkeyed) as Hloop.
    assert (Hdeferred : forall t1 : Tracer T,
      Tracer.services (final ((emit EvTickerStop ;; Done) t1))
      = Tracer.services t1).
    { intros t1. unfold Done, bind, emit, get, put, panic.
      destruct (Tracer.exitWG t1); reflexivity. }
    unfold worker.
    destruct (workerLoop sched t) as [[] t1 evs1|t1 evs1]; simpl in Hloop.
    + exact Hloop.
    + pose proof (Hdeferred t1) as Hd.
      destruct ((emit EvTickerStop ;; Done) t1); simpl in *;
        rewrite Hd; exact Hloop.
    + simpl. rewrite Hdeferred. exact Hloop.
Qed.

Lemma dom_appendService (s : Service) (t : Tracer T) :
  dom (Tracer.services (appendService s t))
    = {[ Service.Name s ]} ∪ dom (Tracer.services t).
Proof.
  destruct (decide (Tracer.services t !! Service.Name s = Some s)) as [E|E].
  - rewrite appendService_same by exact E.
    symmetry. apply subseteq_union_1_L, singleton_subseteq_l.
    apply elem_of_dom. eauto.
  - rewrite appendService_changed by exact E. simpl. apply dom_insert_L.
Qed.

Lemma dom_applyServices (queued : list Service) (t : Tracer T) :
  dom (Tracer.services (applyServices queued t))
    = dom (Tracer.services t) ∪ list_to_set (Service.Name <$> queued).
Proof.
  revert t. induction queued as [|s q IH]; intros t; simpl.
  - rewrite (right_id_L ∅ (∪)). reflexivity.
  - fold (applyServices q (appendService s t)).
    rewrite IH, dom_appendService.
    rewrite (comm_L (∪) {[Service.Name s]}), <- (assoc_L (∪)). reflexivity.
Qed.

(** X15. [drainServices] empties the channel and does nothing the second
    time; on an empty channel it changes nothing.  The names of the
    registry afterwards are the names it had plus the names queued, so
    the registry grows by the distinct names queued at most, however
    many updates were queued; and a set modified flag stays set. *)
Theorem drainServices_spec (t : Tracer T) :
  Tracer.serviceChan (drainServices t) = []
  /\ drainServices (drainServices t) = drainServices t
  /\ (Tracer.serviceChan t = [] -> drainServices t = t)
  /\ dom (Tracer.services (drainServices t))
     = dom (Tracer.services t)
       ∪ list_to_set (Service.Name <$> Tracer.serviceChan t)
  /\ (Tracer.servicesModified t = true ->
      Tracer.servicesModified (drainServices t) = true).
Proof.
  assert (Hdrain : drainServices t
                   = Tracer.set_serviceChan []
                       (applyServices (Tracer.serviceChan t) t))
    by (apply drainLoop_applies; reflexivity).
  split; [rewrite Hdrain; reflexivity|]. split; [|split; [|split]].
  - rewrite Hdrain. reflexivity.
  - intros Hq. unfold drainServices. rewrite Hq. reflexivity.
  - rewrite Hdrain. simpl. apply dom_applyServices.
  - intros Hm. rewrite Hdrain. simpl. apply applyServices_modified, Hm.
Qed.

(** X16. From [SetServiceInfo] to the registry.  With fewer than 10
    updates queued, [SetServiceInfo] returns at once, having queued the
    service behind the others and touched neither the registry nor its
    flag; once the worker has drained the channel, the registry holds
    exactly that service under the name.  With 10 updates queued the
    call does not return before the worker has received. *)
Theorem SetServiceInfo_reaches_registry (name app appType : string)
    (t : Tracer T) :
  (length (Tracer.serviceChan t) < 10 ->
   exists t1,
     SetServiceInfo name app appType t = Some t1
     /\ Tracer.serviceChan t1
        = Tracer.serviceChan t ++ [Service.mk name app appType]
     /\ Tracer.services t1 = Tracer.services t
     /\ Tracer.servicesModified t1 = Tracer.servicesModified t
     /\ Tracer.services (drainServices t1) !! name
        = Some (Service.mk name app appType))
  /\ (10 <= length (Tracer.serviceChan t) ->
      SetServiceInfo name app appType t = None).
Proof.
  unfold SetServiceInfo. split; intros Hlen.
  - destruct (decide _); [|lia]. eexists. split; [reflexivity|].
    repeat split.
    unfold drainServices. rewrite drainLoop_applies by reflexivity. simpl.
    apply (applyServices_last _ [] (Service.mk name app appType)).
    intros s' H. inversion H.
  - destruct (decide _); [lia|reflexivity].
Qed.

(** X17. [Stop] twice.  Closing the open exit channel changes nothing
    else; closing it a second time panics, and so [Stop] called twice
    panics whatever the tracer, the exit channel staying closed. *)
Theorem Stop_twice_panics (t : Tracer T) :
  (Tracer.exit t = false ->
     Stop_close t = Ok tt (Tracer.set_exit true t) [])
  /\ (Tracer.exit t = true -> Stop_close t = Panic t [])
  /\ isPanic (Stop_close_twice t)
  /\ Tracer.exit (final (Stop_close_twice t)) = true.
Proof.
  unfold Stop_close_twice, Stop_close, bind, get, put, panic.
  destruct (Tracer.exit t) eqn:Hexit; simpl; rewrite ?Hexit;
    repeat split; auto; discriminate.
Qed.

(** *** Lines of descent and the sampler *)

(** X18. Every descendant of a span, at any depth, has the trace
    identifier, the service, the kept flag and the tracer of that span,
    and no sampler is invoked along the line of descent. *)
Theorem NewDescendant_inherits (self : ptr) (t : Tracer T)
    (names : list string) (ancestor : Span) (g : IdGen) :
  let '(span, _, evs) := NewDescendant self t names ancestor g in
  Span.TraceID span = Span.TraceID ancestor
  /\ Span.Service span = Span.Service ancestor
  /\ Span.Sampled span = Span.Sampled ancestor
  /\ Span.tracer span = Span.tracer ancestor
  /\ evs = [].
Proof.
  revert ancestor g. induction names as [|name names IH]; intros ancestor g.
  - simpl. repeat split.
  - simpl. unfold NewChildSpan. destruct (nextSpanID g) as [id g1].
    match goal with
    | |- context [NewDescendant self t names ?child g1] =>
        specialize (IH child g1);
        destruct (NewDescendant self t names child g1) as [[span g2] evs]
    end.
    simpl in IH. destruct IH as (-> & -> & -> & -> & ->).
    repeat split.
Qed.

(** X19. The sampler stays valid.  Whatever rates [SetSampleRate] is
    called with, in whatever order, a tracer whose sampler is keep-all or
    a rate sampler with [0 <= rate < 1] still has such a sampler
    afterwards, and nothing but the sampler has changed; a new tracer
    starts with the keep-all sampler. *)
Theorem SetSampleRates_valid (rates : list float64) (t : Tracer T) :
  validSampler (Tracer.sampler t) = true ->
  let t' := SetSampleRates rates t in
  validSampler (Tracer.sampler t') = true
  /\ t' = Tracer.set_sampler (Tracer.sampler t') t
  /\ forall transport,
       Tracer.sampler (NewTracerTransport transport) = allSampler
       /\ validSampler (Tracer.sampler (NewTracerTransport transport)) = true.
Proof.
  intros Hvalid. simpl. split; [|split; [|split; reflexivity]].
  - revert t Hvalid. induction rates as [|rate rates IH]; intros t Hvalid;
      [exact Hvalid|].
    simpl. apply IH. unfold SetSampleRate.
    destruct (SFeqb rate f64_one); [reflexivity|].
    destruct (SFleb f64_zero rate && SFltb rate f64_one) eqn:E;
      [exact E | exact Hvalid].
  - revert t Hvalid. induction rates as [|rate rates IH]; intros t Hvalid.
    + destruct t; reflexivity.
    + simpl. unfold SetSampleRates in IH.
      assert (Hstep : exists smp,
        final (SetSampleRate rate t) = Tracer.set_sampler smp t
        /\ validSampler smp = true).
      { unfold SetSampleRate.
        destruct (SFeqb rate f64_one); [exists allSampler; split; reflexivity|].
        destruct (SFleb f64_zero rate && SFltb rate f64_one) eqn:E.
        - exists (rateSampler rate). split; [reflexivity | exact E].
        - exists (Tracer.sampler t). split; [destruct t; reflexivity|].
          exact Hvalid. }
      destruct Hstep as (smp & -> & Hsmp).
      rewrite (IH (Tracer.set_sampler smp t)) at 1 by exact Hsmp.
      reflexivity.
Qed.

(** *** From [record] to the transport *)

Lemma FlushTraces_submits (t : Tracer T) (tr : T) :
  Tracer.enabled t = true ->
  Tracer.transport t = Some tr ->
  spansBuffer.spans (Tracer.buffer t) <> [] ->
  filter is_transport_call (events (FlushTraces t))
    = [EvSendTraces
         (collectTraces
            (groupByTrace (spansBuffer.spans (Tracer.buffer t))))].
Proof.
  intros He Ht Hne.
  destruct (FlushTraces_cases t)
    as [[[H|[H|H]] _]|(tr0 & _ & _ & _ & E)]; try congruence.
  rewrite E. simpl.
  rewrite filter_app, debugLines_no_transport_call. reflexivity.
Qed.

Lemma collectTraces_concat (spans : list Span) :
  concat (collectTraces (groupByTrace spans)) ≡ₚ spans.
Proof.
  rewrite (concat_perm _ _ (collectTraces_groups spans)).
  apply concat_groups; [apply NoDup_remove_dups|].
  intros s Hs. apply elem_of_remove_dups, list_elem_of_fmap. eauto.
Qed.

(** X20. A recorded span is submitted.  A kept span recorded on an
    enabled tracer with a transport and room in its buffer is part of
    the next submission: [FlushTraces] makes one [SendTraces] call whose
    groups hold the spans buffered before and the recorded span, each
    once, the recorded span sitting in one of the groups. *)
Theorem record_then_flush (span : Span) (t : Tracer T) (tr : T) :
  Tracer.enabled t = true ->
  Span.Sampled span = true ->
  Tracer.transport t = Some tr ->
  length (spansBuffer.spans (Tracer.buffer t))
    < spansBuffer.maxSize (Tracer.buffer t) ->
  exists traces,
    filter is_transport_call (events (FlushTraces (record span t)))
      = [EvSendTraces traces]
    /\ concat traces ≡ₚ spansBuffer.spans (Tracer.buffer t) ++ [span]
    /\ exists group, group ∈ traces /\ span ∈ group.
Proof.
  intros He Hs Ht Hroom.
  assert (Hrec : spansBuffer.spans (Tracer.buffer (record span t))
                 = spansBuffer.spans (Tracer.buffer t) ++ [span]).
  { unfold record. rewrite He, Hs. simpl. unfold spansBuffer.Push.
    destruct (decide _); [reflexivity | lia]. }
  assert (Hfield : Tracer.enabled (record span t) = true
                   /\ Tracer.transport (record span t) = Some tr).
  { unfold record. rewrite He, Hs. simpl. auto. }
  destruct Hfield as (He' & Ht').
  exists (collectTraces
            (groupByTrace (spansBuffer.spans (Tracer.buffer (record span t))))).
  split; [|split].
  - apply (FlushTraces_submits _ tr He' Ht'). rewrite Hrec.
    intros E. apply (f_equal length) in E. rewrite length_app in E.
    simpl in E. lia.
  - rewrite collectTraces_concat, Hrec. reflexivity.
  - assert (Hin : span ∈ concat
                    (collectTraces
                       (groupByTrace
                          (spansBuffer.spans
                             (Tracer.buffer (record span t)))))).
    { rewrite collectTraces_concat, Hrec. apply elem_of_app. right. left. }
    apply list_elem_of_In, in_concat in Hin as (group & Hgroup & Hspan).
    exists group. split; apply list_elem_of_In; assumption.
Qed.

(** X21. Registering a service again.  [appendService] with the same
    service twice is the same as once; and once the registry holds a
    service and its flag is clear, as after a successful flush,
    registering that service again changes nothing and the next
    [flushServices] sends nothing. *)
Theorem appendService_again (s : Service) (t : Tracer T) :
  appendService s (appendService s t) = appendService s t
  /\ forall t',
       Tracer.services t' !! Service.Name s = Some s ->
       Tracer.servicesModified t' = false ->
       appendService s t' = t'
       /\ flushServices (appendService s t') = Ok None t' [].
Proof.
  split.
  - apply appendService_same, appendService_lookup.
  - intros t' Hlook Hm.
    rewrite (appendService_same s t' Hlook). split; [reflexivity|].
    destruct (flushServices_cases t')
      as [[_ E]|[(_ & H & _)|(tr & _ & H & _)]]; congruence.
Qed.

End TracerMethods.

(** ** The properties at work on the sample data *)

(** C8 at the rate 1.5: the sampler stays, a warning is logged. *)
Lemma SetSampleRate_spec_witness :
  SetSampleRate f64_one_and_a_half busyTracer
    = Ok tt busyTracer
         [EvLog "tracer.SetSampleRate rate must be between 0 and 1, now: %f"
                [ArgFloat f64_one_and_a_half]]
  /\ SetSampleRate f64_one busyTracer
       = Ok tt (Tracer.set_sampler allSampler busyTracer) []
  /\ SetSampleRate f64_zero busyTracer
       = Ok tt (Tracer.set_sampler (rateSampler f64_zero) busyTracer) [].
Proof.
  split; [|split].
  - apply (proj1 (SetSampleRate_spec f64_one_and_a_half busyTracer)).
    reflexivity.
  - apply (proj1 (proj2 (SetSampleRate_spec f64_one busyTracer))).
    reflexivity.
  - apply (proj2 (proj2 (SetSampleRate_spec f64_zero busyTracer)));
      reflexivity.
Defined.

(** C5 on the busy tracer, whose buffer has room: a kept span is
    appended. *)
Lemma record_spec_witness :
  record spanA busyTracer
    = Tracer.set_buffer
        (spansBuffer.Push spanA (Tracer.buffer busyTracer)) busyTracer
  /\ record (Span.set_Sampled false spanA) busyTracer = busyTracer
  /\ spansBuffer.spans (Tracer.buffer (record spanA busyTracer))
       = spansBuffer.spans (Tracer.buffer busyTracer) ++ [spanA].
Proof.
  split; [|split].
  - apply (proj1 (record_spec spanA busyTracer)); reflexivity.
  - apply (proj1 (proj2 (record_spec _ busyTracer))). reflexivity.
  - apply (proj2 (proj2 (record_spec spanA busyTracer))).
    + simpl. lia.
    + split; reflexivity.
Defined.

(** C1 as the spec words it fails on a fresh tracer: the span of
    [NewChildSpan("web.request", nil)] has the empty service, not its
    name, and it has been handed to the sampler. *)
Lemma NewChildSpan_nil_parent_counterexample :
  let t : Tracer countingTransport := NewTracerTransport 10 (Some 0%nat) in
  let '(span, _, evs) :=
    NewChildSpan countingIDs true neverDrawn 1%positive t
      "web.request" None 7%Z in
  Span.Service span = ""
  /\ filter is_sample_call evs
       = [EvSample allSampler
            (NewSpan true "web.request" "" "web.request" 7%Z 7%Z 7%Z
               (Some 1%positive))]
  /\ ~ (Span.TraceID span = Span.SpanID span
        /\ Span.ParentID span = Span.SpanID span
        /\ Span.Service span = "web.request"
        /\ Span.Resource span = "web.request"
        /\ filter is_sample_call evs = []).
Proof.
  simpl. split; [reflexivity|]. split; [reflexivity|].
  intros (_ & _ & Hservice & _). discriminate Hservice.
Defined.

(** What becomes of that span on the fresh tracer, whose sampler keeps
    all: it is kept, recorded when it finishes, and submitted by the next
    flush. *)
Example nil_parent_span_is_submitted :
  let t : Tracer countingTransport := NewTracerTransport 10 (Some 0%nat) in
  let span :=
    (NewChildSpan countingIDs true neverDrawn 1%positive t
       "web.request" None 7%Z).1.1 in
  Span.Sampled span = true
  /\ Finish span {[ 1%positive := t ]} = Some {[ 1%positive := record span t ]}
  /\ events (FlushTraces map_to_list (record span t))
       = [EvSendTraces [[span]]].
Proof.
  simpl. split; [reflexivity|]. split.
  - unfold Finish. simpl. rewrite lookup_singleton_eq, insert_singleton_eq.
    reflexivity.
  - vm_compute. reflexivity.
Qed.

(** A service update sent right before [Stop]: the tracer is created,
    [SetServiceInfo] queues the update, [Stop] closes the exit channel,
    and the worker, taking the exit case, sends the update with its final
    flush and releases [Stop]. *)
Example last_moment_update_is_sent :
  let t0 : Tracer countingTransport := NewTracerTransport 10 (Some 0%nat) in
  exists t1 t2 t3,
    SetServiceInfo "db" "postgres" "db" t0 = Some t1
    /\ Stop_close t1 = Ok tt t2 []
    /\ worker map_to_list [caseExit] t2
         = Ok Stopped t3
              [EvSendServices {[ "db" := dbService ]}; EvTickerStop; EvDone]
    /\ Stop_released t3 = true.
Proof.
  simpl. do 3 eexists. split; [reflexivity|]. split; [reflexivity|].
  split; vm_compute; reflexivity.
Qed.

(** X1 on the fresh tracer. *)
Lemma NewRootSpan_ids_example :
  (NewRootSpan countingIDs true neverDrawn 1%positive otherTracer
     "web.request" "web" "/home" 7%Z).1.1
    = Span.mk "web.request" "web" "/home" 7%Z 7%Z 0%Z true (Some 1%positive).
Proof. reflexivity. Qed.

(** X2 on the busy tracer: the registered service again, then a change
    of its application type. *)
Lemma appendService_upsert_witness :
  appendService webService busyTracer = busyTracer
  /\ appendService (Service.mk "web" "rails" "worker")
       (Tracer.set_servicesModified false busyTracer)
     = Tracer.set_servicesModified true
         (Tracer.set_services
            (<[ "web" := Service.mk "web" "rails" "worker" ]>
               (Tracer.services busyTracer))
            (Tracer.set_servicesModified false busyTracer)).
Proof.
  split.
  - apply (proj1 (appendService_upsert webService busyTracer)).
    reflexivity.
  - apply (proj1 (proj2 (appendService_upsert
                           (Service.mk "web" "rails" "worker")
                           (Tracer.set_servicesModified false busyTracer)))).
    vm_compute. discriminate.
Defined.

(** C10 with two tracers: a child of [spanA], which belongs to the
    tracer at address 1, made through the tracer at address 2, is
    recorded at address 1 when it finishes, and the tracer at address 2
    stays as it was; and a child of a span that refers to no tracer
    refers to none, not to the receiver. *)
Lemma NewChildSpan_tracer_of_parent_witness :
  let heap : gmap ptr (Tracer countingTransport) :=
    {[ 1%positive := busyTracer; 2%positive := otherTracer ]} in
  let child :=
    (NewChildSpan countingIDs true neverDrawn 2%positive otherTracer
       "db.query" (Some spanA) 7%Z).1.1 in
  let orphan :=
    Span.mk "web.request" "web" "/home" 1%Z 1%Z 0%Z true None in
  Span.tracer child = Some 1%positive
  /\ Finish child heap = Some (<[1%positive := record child busyTracer]> heap)
  /\ Span.tracer
       (NewChildSpan countingIDs true neverDrawn 2%positive otherTracer
          "db.query" (Some orphan) 7%Z).1.1 = None.
Proof.
  split; [|split].
  - exact (proj1 (NewChildSpan_tracer_of_parent countingIDs true neverDrawn
                    2%positive otherTracer "db.query" spanA 7%Z
                    {[ 1%positive := busyTracer; 2%positive := otherTracer ]})).
  - apply (proj1 (proj2 (proj2 (proj2
             (NewChildSpan_tracer_of_parent countingIDs true neverDrawn
                2%positive otherTracer "db.query" spanA 7%Z
                {[ 1%positive := busyTracer; 2%positive := otherTracer ]}))))
             1%positive busyTracer); reflexivity.
  - exact (proj1 (NewChildSpan_tracer_of_parent countingIDs true neverDrawn
                    2%positive otherTracer "db.query"
                    (Span.mk "web.request" "web" "/home" 1%Z 1%Z 0%Z true None)
                    7%Z ∅)).
Defined.

(** [flushServices] on the busy tracer: one call with the whole
    mapping, and the
    flag is cleared as the transport answers [nil]; nothing happens once
    the tracer is disabled; and the tracer whose transport refuses the
    call stays as it was, flag set, and returns the error. *)
Lemma flushServices_spec_witness :
  flushServices (Tracer.set_enabled false busyTracer)
    = Ok None (Tracer.set_enabled false busyTracer) []
  /\ flushServices busyTracer
       = Ok None
            (Tracer.set_servicesModified false
               (Tracer.set_transport (Some 1%nat) busyTracer))
            [EvSendServices (Tracer.services busyTracer)]
  /\ flushServices stuckTracer
       = Ok (Some "connection refused") stuckTracer
            [EvSendServices (Tracer.services stuckTracer)].
Proof.
  split; [|split].
  - apply (proj1 (flushServices_spec _)). left. reflexivity.
  - exact (proj1 (proj2 (flushServices_spec busyTracer) 0%nat
                    eq_refl eq_refl eq_refl)).
  - exact (proj1 (proj2 (flushServices_spec stuckTracer) Unreachable
                    eq_refl eq_refl eq_refl)).
Defined.

(** C9 on the tracer without a transport. *)
Lemma flushServices_nil_transport_witness :
  flushServices bareTracer = Panic bareTracer []
  /\ exists evs,
       FlushTraces map_to_list bareTracer
         = Ok None
              (Tracer.set_buffer
                 (spansBuffer.Pop (Tracer.buffer bareTracer)).2 bareTracer)
              evs
       /\ filter is_transport_call evs = [].
Proof.
  exact (flushServices_nil_transport map_to_list bareTracer
           eq_refl eq_refl eq_refl).
Defined.

(** C6 on the tracer without a transport: the buffer is drained and
    nothing is sent. *)
Lemma FlushTraces_bails_witness :
  exists evs,
    FlushTraces map_to_list bareTracer
      = Ok None
           (Tracer.set_buffer
              (spansBuffer.Pop (Tracer.buffer bareTracer)).2 bareTracer)
           evs
    /\ filter is_transport_call evs = [].
Proof.
  apply (proj2 (FlushTraces_bails map_to_list bareTracer)).
  right. left. reflexivity.
Defined.

(** C7 on the busy tracer, whose buffer holds spans of the traces 1, 2
    and 1: two groups, the two spans of trace 1 and the span of
    trace 2. *)
Lemma FlushTraces_groups_witness :
  exists traces,
    filter is_transport_call (events (FlushTraces map_to_list busyTracer))
      = [EvSendTraces traces]
    /\ traces ≡ₚ [[spanC]; [spanA; spanB]]
    /\ length traces = 2%nat.
Proof.
  destruct (FlushTraces_groups map_to_list (fun m => reflexivity _)
              busyTracer 0%nat eq_refl eq_refl ltac:(discriminate))
    as (traces & Hcall & Hperm & Hlen & _).
  exists traces. split; [exact Hcall|]. split; [exact Hperm | exact Hlen].
Defined.

(** The shutdown on the busy tracer: the queued update of the service
    [db] is in
    the map the final flush sends, and [Stop] is released. *)
Lemma worker_shutdown_witness :
  let applied := applyServices (Tracer.serviceChan busyTracer) busyTracer in
  Tracer.services applied !! "db" = Some dbService
  /\ exists t' evs,
       worker map_to_list [caseExit; caseTick] busyTracer
         = Ok Stopped (Tracer.set_exitWG 0 t') (evs ++ [EvTickerStop; EvDone])
       /\ Stop_released (Tracer.set_exitWG 0 t') = true
       /\ EvSendServices (Tracer.services applied) ∈ evs.
Proof.
  destruct (worker_shutdown map_to_list busyTracer [caseTick] 0%nat
              eq_refl eq_refl eq_refl)
    as (_ & (t' & evs & _ & Hworker & _ & _ & Hstop & _ & Hsent)
        & Hlast & _).
  split.
  - apply (Hlast [] dbService [] eq_refl). intros s' Hin. inversion Hin.
  - exists t', evs. split; [exact Hworker|]. split.
    + apply Hstop. reflexivity.
    + apply Hsent; reflexivity.
Defined.

(** ** More of the properties on the sample data *)

(** X5 on the busy tracer, whose transport accepts, and on the stuck
    tracer, whose transport refuses. *)
Lemma flushServices_retry_witness :
  flushServices (final (flushServices busyTracer))
    = Ok None (final (flushServices busyTracer)) []
  /\ events (flushServices (final (flushServices stuckTracer)))
     = [EvSendServices (Tracer.services stuckTracer)].
Proof.
  split.
  - apply (proj1 (flushServices_retry busyTracer 0%nat
                    eq_refl eq_refl eq_refl)).
    reflexivity.
  - apply (proj2 (flushServices_retry stuckTracer Unreachable
                    eq_refl eq_refl eq_refl) "connection refused").
    reflexivity.
Defined.

(** X6 on the busy tracer: the traces, then the services. *)
Lemma flush_transport_calls_witness :
  exists t' evs,
    flush map_to_list busyTracer = Ok tt t' evs
    /\ filter is_transport_call evs
       = [EvSendTraces
            (collectTraces map_to_list
               (groupByTrace (spansBuffer.spans (Tracer.buffer busyTracer))));
          EvSendServices (Tracer.services busyTracer)].
Proof.
  exact (flush_transport_calls map_to_list busyTracer 0%nat eq_refl).
Defined.

(** X7 on the stuck tracer: one span lost. *)
Lemma flush_logs_lost_witness :
  exists t' evs,
    flush map_to_list stuckTracer
      = Ok tt t'
           ([EvSendTraces [[spanA]];
             EvLog "cannot flush traces: %v" [ArgErr "connection refused"];
             EvLog "lost %d spans" [ArgInt 1]]
            ++ evs)
    /\ spansBuffer.spans (Tracer.buffer t') = []
    /\ (Tracer.servicesModified stuckTracer = true ->
        EvSendServices (Tracer.services stuckTracer) ∈ evs).
Proof.
  exact (flush_logs_lost map_to_list stuckTracer Unreachable
           "connection refused" eq_refl eq_refl ltac:(discriminate) eq_refl).
Defined.

(** X9 on the tracer without a transport: its services are modified, so
    the flush panics. *)
Lemma flush_nil_transport_witness :
  isPanic (flush map_to_list bareTracer)
  /\ filter is_transport_call (events (flush map_to_list bareTracer)) = []
  /\ spansBuffer.spans (Tracer.buffer (final (flush map_to_list bareTracer)))
     = [].
Proof.
  destruct (flush_nil_transport map_to_list bareTracer eq_refl)
    as (Hpanic & Hcalls & Hbuffer).
  split; [|split; [exact Hcalls | exact Hbuffer]].
  apply Hpanic. split; reflexivity.
Defined.

(** X10 on the busy tracer. *)
Lemma FlushTraces_partition_witness :
  exists traces,
    filter is_transport_call (events (FlushTraces map_to_list busyTracer))
      = [EvSendTraces traces]
    /\ concat traces ≡ₚ [spanA; spanC; spanB]
    /\ Forall (fun group => group <> []) traces.
Proof.
  destruct (FlushTraces_partition map_to_list (fun m => reflexivity _)
              busyTracer 0%nat eq_refl eq_refl ltac:(discriminate))
    as (traces & Hcall & Hconcat & Hnonempty & _).
  exists traces. split; [exact Hcall|]. split; assumption.
Defined.

(** X11 on the busy tracer, whose three buffered spans are kept. *)
Lemma kept_spans_only_witness :
  bufferKept (record (Span.set_Sampled false spanA) busyTracer)
  /\ bufferKept (record spanA busyTracer)
  /\ forall traces,
       EvSendTraces traces ∈ events (FlushTraces map_to_list busyTracer) ->
       Forall (Forall (fun s => Span.Sampled s = true)) traces.
Proof.
  assert (Hkept : bufferKept busyTracer)
    by (repeat constructor).
  destruct (kept_spans_only map_to_list (fun m => reflexivity _)
              busyTracer Hkept) as (Hrecord & _ & Hsent).
  split; [apply Hrecord|]. split; [apply Hrecord | exact Hsent].
Defined.

(** X12 on the busy tracer, whose channel holds one update. *)
Lemma service_turns_then_exit_witness :
  worker map_to_list [caseService; caseExit] busyTracer
    = worker map_to_list [caseExit] busyTracer.
Proof.
  exact (proj1 (service_turns_then_exit map_to_list 1 [] busyTracer
                  eq_refl)).
Defined.

(** X13 on the fresh tracer, whose exit channel is open. *)
Lemma worker_runs_until_exit_witness :
  exists t' evs,
    worker map_to_list [caseTick; caseExit; caseService; caseTick]
      otherTracer = Ok Running t' evs
    /\ Tracer.exit t' = false
    /\ Tracer.exitWG t' = 1%nat
    /\ filter is_deferred_call evs = [].
Proof.
  exact (worker_runs_until_exit map_to_list
           [caseTick; caseExit; caseService; caseTick] otherTracer
           eq_refl eq_refl).
Defined.

(** X14 on the busy tracer, whose registry holds [web] under its
    name. *)
Lemma registry_keyed_by_name_witness :
  registryKeyed (Tracer.services busyTracer)
  /\ registryKeyed
       (Tracer.services
          (final (worker map_to_list [caseTick; caseService; caseExit]
                    busyTracer))).
Proof.
  assert (Hkeyed : registryKeyed (Tracer.services busyTracer)).
  { intros name s. simpl. intros H.
    apply lookup_singleton_Some in H as [<- <-]. reflexivity. }
  split; [exact Hkeyed|].
  apply (proj2 (registry_keyed_by_name 10 map_to_list (Some 0%nat))
           busyTracer Hkeyed).
Defined.

(** X15 on the fresh tracer, whose channel is empty. *)
Lemma drainServices_spec_witness :
  drainServices otherTracer = otherTracer
  /\ Tracer.servicesModified (drainServices busyTracer) = true.
Proof.
  split.
  - apply (proj1 (proj2 (proj2 (drainServices_spec otherTracer)))).
    reflexivity.
  - apply (proj2 (proj2 (proj2 (proj2 (drainServices_spec busyTracer))))).
    reflexivity.
Defined.

(** X16 on the busy tracer: a new application type for [web], queued
    behind the update of [db]. *)
Lemma SetServiceInfo_reaches_registry_witness :
  exists t1,
    SetServiceInfo "web" "rails" "worker" busyTracer = Some t1
    /\ Tracer.serviceChan t1
       = [dbService; Service.mk "web" "rails" "worker"]
    /\ Tracer.services t1 = Tracer.services busyTracer
    /\ Tracer.servicesModified t1 = Tracer.servicesModified busyTracer
    /\ Tracer.services (drainServices t1) !! "web"
       = Some (Service.mk "web" "rails" "worker").
Proof.
  apply (proj1 (SetServiceInfo_reaches_registry
                  "web" "rails" "worker" busyTracer)).
  simpl. lia.
Defined.

(** X17 on the fresh tracer and on the busy tracer, whose exit channel
    is closed already. *)
Lemma Stop_twice_panics_witness :
  Stop_close otherTracer = Ok tt (Tracer.set_exit true otherTracer) []
  /\ Stop_close busyTracer = Panic busyTracer [].
Proof.
  split.
  - apply (proj1 (Stop_twice_panics otherTracer)). reflexivity.
  - apply (proj1 (proj2 (Stop_twice_panics busyTracer))). reflexivity.
Defined.

(** X18 below [spanA]: a grandchild made through another tracer. *)
Lemma NewDescendant_inherits_example :
  (NewDescendant countingIDs true neverDrawn 2%positive otherTracer
     ["db.query"; "db.fetch"] spanA 7%Z).1.1
    = Span.mk "db.fetch" "web" "db.fetch" 8%Z 1%Z 7%Z true (Some 1%positive).
Proof. reflexivity. Qed.

(** X19 on the fresh tracer: 0.5 is installed, then 1.5 and NaN are
    refused. *)
Lemma SetSampleRates_valid_witness :
  let t' :=
    SetSampleRates [f64_half; f64_one_and_a_half; S754_nan] otherTracer in
  validSampler (Tracer.sampler t') = true
  /\ t' = Tracer.set_sampler (Tracer.sampler t') otherTracer.
Proof.
  destruct (SetSampleRates_valid 10
              [f64_half; f64_one_and_a_half; S754_nan] otherTracer eq_refl)
    as (Hvalid & Hsame & _).
  split; assumption.
Defined.

(** The sampler that sequence leaves: the rate 0.5. *)
Example SetSampleRates_example :
  Tracer.sampler
    (SetSampleRates [f64_half; f64_one_and_a_half; S754_nan] otherTracer)
    = rateSampler f64_half.
Proof. reflexivity. Qed.

(** X20 on the busy tracer: a fourth span, of trace 2, is recorded and
    then submitted with the three others. *)
Lemma record_then_flush_witness :
  let span :=
    Span.mk "db.query" "web" "db.query" 4%Z 2%Z 3%Z true (Some 1%positive) in
  exists traces,
    filter is_transport_call
      (events (FlushTraces map_to_list (record span busyTracer)))
      = [EvSendTraces traces]
    /\ concat traces ≡ₚ [spanA; spanC; spanB; span]
    /\ exists group, group ∈ traces /\ span ∈ group.
Proof.
  exact (record_then_flush map_to_list (fun m => reflexivity _)
           (Span.mk "db.query" "web" "db.query" 4%Z 2%Z 3%Z true
              (Some 1%positive))
           busyTracer 0%nat eq_refl eq_refl eq_refl ltac:(simpl; lia)).
Defined.

(** X21 on the busy tracer: [web] registered again after a flush. *)
Lemma appendService_again_witness :
  flushServices
    (appendService webService (final (flushServices busyTracer)))
    = Ok None (final (flushServices busyTracer)) [].
Proof.
  destruct (appendService_again webService busyTracer) as (_ & Hagain).
  destruct (Hagain (final (flushServices busyTracer))) as (_ & Hflush).
  - reflexivity.
  - reflexivity.
  - exact Hflush.
Defined.

(** ** The nil transport at the services flush *)

(** C4. The code misses the claim on a tracer created with a nil
    transport once a service is registered.  The tracer is enabled and
    its services are modified, so [flushServices] takes the branch that
    hands the mapping to the transport; it has no test of the transport
    there, calls through the nil interface and panics: it does not
    return, no transport call is made, the flag and the mapping stay as
    they were.  [FlushTraces] on the same tracer tests the transport and
    returns [nil]. *)
Theorem flushServices_without_transport :
  let t : Tracer countingTransport :=
    appendService webService (NewTracerTransport 10 None) in
  Tracer.enabled t = true
  /\ Tracer.servicesModified t = true
  /\ Tracer.transport t = None
  /\ flushServices t = Panic t []
  /\ (forall err t' evs, flushServices t <> Ok err t' evs)
  /\ filter is_transport_call (events (flushServices t)) = []
  /\ FlushTraces map_to_list t = Ok None t [].
Proof.
  cbv zeta.
  assert (E : flushServices
                (appendService webService
                   (NewTracerTransport 10 (None : option countingTransport)))
              = Panic (appendService webService (NewTracerTransport 10 None))
                  []) by reflexivity.
  split; [reflexivity|]. split; [reflexivity|]. split; [reflexivity|].
  split; [exact E|]. split; [|split].
  - intros err t' evs H. rewrite E in H. discriminate H.
  - rewrite E. reflexivity.
  - reflexivity.
Qed.

(** C2. The code misses the claim on a tracer created with a nil
    transport.  A service update is queued with [SetServiceInfo], [Stop]
    closes the exit channel, and the worker takes the exit case: the
    update is applied to the registry, but the final flush panics in
    [flushServices] before any service map is handed over.  The deferred
    calls run and the worker does not return: no service map is ever
    transmitted, and the update is lost with the panic. *)
Theorem worker_shutdown_without_transport :
  let t0 : Tracer countingTransport := NewTracerTransport 10 None in
  exists t1 t2 t3,
    SetServiceInfo "web" "rails" "web" t0 = Some t1
    /\ Stop_close t1 = Ok tt t2 []
    /\ worker map_to_list [caseExit] t2 = Panic t3 [EvTickerStop; EvDone]
    /\ Tracer.services t3 !! "web" = Some webService
    /\ Tracer.servicesModified t3 = true
    /\ filter is_transport_call (events (worker map_to_list [caseExit] t2))
       = [].
Proof.
  cbv zeta. do 3 eexists.
  split; [reflexivity|]. split; [reflexivity|].
  split; [vm_compute; reflexivity|].
  split; [reflexivity|]. split; reflexivity.
Qed.
